(** * Currency converter: rate acquisition, caching and conversion

    A shallow embedding of [app/index.js]: the module-level cache
    ([exchangeRates], [lastFetchTime]), [fetchExchangeRates],
    [convertCurrency] and the routes of the HTTP server, and of the test
    script that queries the server ([makeRequest], [runTests]).

    JavaScript numbers are IEEE 754 binary64 values; they are modelled by
    Rocq's primitive floats, so every arithmetic step of the source rounds
    here exactly as it does in the program.  Objects used as dictionaries
    are finite maps from property name to number; the order of their
    keys is not modelled.  Time is an input: every [Date.now()] of the
    source is an integer argument here, and so is the network event that
    ends an outbound request.  A call of [fetchExchangeRates] is given
    twice: as one step, for a call that no other call overlaps, and as
    turns of the event loop, for calls whose requests are out at the
    same time. *)

From Stdlib Require Import ZArith Floats String.
From stdpp Require Import base option gmap strings.

Set Warnings "-inexact-float".
Local Open Scope Z_scope.

(** ** JavaScript numbers *)

Module JS.

(** [!x] for a number: [0], [-0] and [NaN] are falsy. *)
Definition falsy (x : float) : bool :=
  (PrimFloat.eqb x 0 || PrimFloat.is_nan x)%bool.

(** What reading a property of a rates object can give: [undefined], a
    number, or a function or object (a member inherited from
    [Object.prototype]). *)
Inductive value : Type :=
  | Undefined
  | Number (x : float)
  | Object.

(** [!v]: [undefined] is falsy, functions and objects are truthy. *)
Definition not (v : value) : bool :=
  match v with
  | Undefined => true
  | Number x => falsy x
  | Object => false
  end.

(** [v] as an operand of [/] or [*]: [undefined], functions and plain
    objects become [NaN]. *)
Definition to_number (v : value) : float :=
  match v with
  | Number x => x
  | Undefined | Object => nan
  end.

(** The integer [n] as a number, for [|n| <= 2^53] (exact). *)
Definition of_Z (n : Z) : float :=
  match n with
  | Z0 => 0%float
  | Zpos p => SF2Prim (S754_finite false p 0)
  | Zneg p => SF2Prim (S754_finite true p 0)
  end.

(** [Math.round(x)]: the integer nearest to [x], ties towards +infinity,
    that is floor(x + 1/2) computed exactly.  [NaN], the infinities and
    the zeros are returned unchanged; a number whose binary exponent is
    not negative is an integer already; a result of zero keeps the sign
    of [x]. *)
Definition round (x : float) : float :=
  match Prim2SF x with
  | S754_finite s m e =>
      if 0 <=? e then x
      else
        let v := if s then Zneg m else Zpos m in
        let n := (2 * v + 2 ^ (- e)) / 2 ^ (- e + 1) in
        if n =? 0 then (if s then (-0)%float else 0%float) else of_Z n
  | _ => x
  end.

End JS.

(** The number 1 in the binary64 specification: mantissa 2^52, exponent
    -52. *)
Definition sf_one : spec_float :=
  S754_finite false 4503599627370496 (-52).

(** ** Module-level state *)

(** Fallback static exchange rates (base USD), used when the API is
    unavailable. *)
Definition fallbackRates : gmap string float :=
  list_to_map
    [ ("USD", 1.0); ("INR", 88.00); ("EUR", 0.92);
      ("GBP", 0.78); ("JPY", 156.3); ("AED", 3.67) ]%float.

(** 10 minutes, in milliseconds. *)
Definition CACHE_DURATION : Z := 10 * 60 * 1000.

(** The two module-level variables of the cache.  Times are the integers
    [Date.now()] returns (milliseconds since the epoch); [lastFetchTime]
    is [0] until a fetch has succeeded. *)
Record cache : Type := Cache {
  exchangeRates : gmap string float;
  lastFetchTime : Z
}.

(** [let exchangeRates = { ...fallbackRates }; let lastFetchTime = 0;] *)
Definition initial_cache : cache :=
  {| exchangeRates := fallbackRates; lastFetchTime := 0 |}.

(** An object literal [{ k: v, ...o }]: the properties of [o] are copied
    after [k] has been set, so a property [k] of [o] replaces [v]. *)
Definition literal_then_spread (k : string) (v : float)
    (o : gmap string float) : gmap string float :=
  o ∪ {[ k := v ]}.

(** The property names every plain object inherits from
    [Object.prototype]; reading one of them gives a function (for
    [__proto__], the prototype object). *)
Definition Object_prototype : list string :=
  [ "constructor"; "hasOwnProperty"; "isPrototypeOf";
    "propertyIsEnumerable"; "toLocaleString"; "toString"; "valueOf";
    "__proto__"; "__defineGetter__"; "__defineSetter__";
    "__lookupGetter__"; "__lookupSetter__" ].

Definition inherited (key : string) : bool :=
  existsb (String.eqb key) Object_prototype.

(** [o[key]] on a rates object: its own property when it has one,
    otherwise what the prototype provides. *)
Definition get (o : gmap string float) (key : string) : JS.value :=
  match o !! key with
  | Some x => JS.Number x
  | None => if inherited key then JS.Object else JS.Undefined
  end.

(** ** The provider *)

(** What the ['end'] handler finds in the accumulated response text:
    [JSON.parse] throws (or yields [null], on which reading [.rates]
    throws); the parsed value has no truthy [rates] property; or it has
    one.  The members of [rates] are taken to be numbers, which is what
    the provider sends; a truthy [rates] that is a number or [true]
    spreads to no property at all, like the empty object. *)
Inductive body : Type :=
  | Malformed
  | NoRates
  | WithRates (rates : gmap string float).

(** The event that settles an outbound request: the handlers registered
    by [fetchExchangeRates] are response ['end'], request ['error'] and
    the 5000 ms timeout. *)
Inductive net_event : Type :=
  | ResponseEnd (b : body)
  | RequestError
  | RequestTimeout.

(** A settled promise. *)
Inductive settled (A : Type) : Type :=
  | Resolved (a : A)
  | Rejected (reason : string).
Arguments Resolved {A} a.
Arguments Rejected {A} reason.

(** The synchronous part of the executor: with a fresh cache the promise
    resolves at once with [exchangeRates]; otherwise (result [None]) a
    request is issued and a later callback settles the promise. *)
Definition fetch_start (c : cache) (now : Z)
    : option (settled (gmap string float)) :=
  if now - lastFetchTime c <? CACHE_DURATION
  then Some (Resolved (exchangeRates c))
  else None.

(** The callback settling a request that was issued at time [now], run on
    the cache as it is when the event arrives. *)
Definition fetch_settle (c : cache) (now : Z) (ev : net_event)
    : settled (gmap string float) * cache :=
  match ev with
  | ResponseEnd (WithRates rates) =>
      let c' := {| exchangeRates := literal_then_spread "USD" 1.0 rates;
                   lastFetchTime := now |} in
      (Resolved (exchangeRates c'), c')
  | ResponseEnd NoRates => (Resolved fallbackRates, c)
  | ResponseEnd Malformed => (Resolved fallbackRates, c)
  | RequestError => (Resolved fallbackRates, c)
  | RequestTimeout => (Resolved fallbackRates, c)
  end.

(** One complete call: its settled promise, the cache afterwards and the
    number of outbound requests it issued. *)
Record outcome : Type := Outcome {
  result : settled (gmap string float);
  cache_after : cache;
  requests : nat
}.

(** [fetchExchangeRates()] called at time [now] and settled before any
    other call begins: the handler finds the cache the call left.  [ev]
    is what the network does if a request is issued.  Calls that overlap
    are the subject of [turn_step] below. *)
Definition fetchExchangeRates (c : cache) (now : Z) (ev : net_event)
    : outcome :=
  match fetch_start c now with
  | Some r => {| result := r; cache_after := c; requests := 0 |}
  | None =>
      let '(r, c') := fetch_settle c now ev in
      {| result := r; cache_after := c'; requests := 1 |}
  end.

(** Successive calls, each completed before the next begins. *)
Fixpoint fetch_all (c : cache) (calls : list (Z * net_event))
    : list (settled (gmap string float)) * cache :=
  match calls with
  | [] => ([], c)
  | (now, ev) :: rest =>
      let o := fetchExchangeRates c now ev in
      let '(rs, c') := fetch_all (cache_after o) rest in
      (result o :: rs, c')
  end.

(** ** Overlapping calls

    Between the moment a call issues its request and the moment a
    handler settles its promise, other calls may begin and other answers
    may arrive.  Each runs to completion on the module variables as it
    finds them: the executor reads the clock and either resolves from the
    cache or issues a request, keeping the clock value it read; a handler
    uses that value and the cache of its own moment. *)

(** The module variables, the clock values kept by the calls whose
    request is still out, and the number of requests issued so far. *)
Record loop : Type := Loop {
  store : cache;
  in_flight : gmap nat Z;
  issued : nat
}.

(** No request out. *)
Definition idle (c : cache) : loop :=
  {| store := c; in_flight := ∅; issued := 0 |}.

(** One turn of the event loop: a call of [fetchExchangeRates] begins, or
    the event that settles request number [id] arrives. *)
Inductive turn : Type :=
  | Incoming (now : Z)
  | Arrives (id : nat) (ev : net_event).

(** What a turn does to a promise: a call resolved at once from the
    cache, a call that issued request [id], the call of request [id]
    settled, or an event for a request that is not out (nothing runs). *)
Inductive observation : Type :=
  | Immediate (r : settled (gmap string float))
  | Sent (id : nat)
  | Settled (id : nat) (r : settled (gmap string float))
  | Ignored.

Definition turn_step (s : loop) (t : turn) : loop * observation :=
  match t with
  | Incoming now =>
      match fetch_start (store s) now with
      | Some r => (s, Immediate r)
      | None =>
          ({| store := store s;
              in_flight := <[ issued s := now ]> (in_flight s);
              issued := S (issued s) |},
           Sent (issued s))
      end
  | Arrives id ev =>
      match in_flight s !! id with
      | Some now =>
          let '(r, c') := fetch_settle (store s) now ev in
          ({| store := c';
              in_flight := delete id (in_flight s);
              issued := issued s |},
           Settled id r)
      | None => (s, Ignored)
      end
  end.

Fixpoint run_turns (s : loop) (turns : list turn)
    : list observation * loop :=
  match turns with
  | [] => ([], s)
  | t :: rest =>
      let '(s', o) := turn_step s t in
      let '(os, s'') := run_turns s' rest in
      (o :: os, s'')
  end.

(** The value a turn settled a promise with, if it settled one. *)
Definition resolution (o : observation)
    : option (settled (gmap string float)) :=
  match o with
  | Immediate r | Settled _ r => Some r
  | Sent _ | Ignored => None
  end.

(** ** Conversion *)

(** The number an optional value holds, [NaN] when there is none. *)
Definition to_number (v : option float) : float := default nan v.

(** How a call of [convertCurrency] ends: the rounded amount, [null] from
    the guard on the two rates, or [null] from the [catch] block. *)
Inductive conversion : Type :=
  | Converted (x : float)
  | NullRate
  | NullCaught.

(** The value the caller receives; [None] is [null]. *)
Definition returned (r : conversion) : option float :=
  match r with
  | Converted x => Some x
  | NullRate | NullCaught => None
  end.

(** The body of the [try] block once [rates] is available. *)
Definition convert_with (rates : gmap string float) (from to : string)
    (amount : float) : conversion :=
  let fromRate := get rates from in
  let toRate := get rates to in
  if (JS.not fromRate || JS.not toRate)%bool then NullRate
  else
    let usdAmount := (amount / JS.to_number fromRate)%float in
    let result := (usdAmount * JS.to_number toRate)%float in
    Converted (JS.round (result * 100) / 100)%float.

Definition convertCurrency (c : cache) (from to : string) (amount : float)
    (now : Z) (ev : net_event) : conversion * cache * nat :=
  let o := fetchExchangeRates c now ev in
  (match result o with
   | Resolved rates => convert_with rates from to amount
   | Rejected _ => NullCaught
   end, cache_after o, requests o).

(** ** The provenance shown to callers *)

(** [(Date.now() - lastFetchTime) < CACHE_DURATION && lastFetchTime > 0],
    with [now] the value of that later [Date.now()]. *)
Definition isLive (c : cache) (now : Z) : bool :=
  ((now - lastFetchTime c <? CACHE_DURATION) && (0 <? lastFetchTime c))%bool.

Definition source_label (c : cache) (now : Z) : string :=
  if isLive c now then "live" else "fallback".

(** ** The HTTP server *)

(** The three parameters the [/convert] route reads from the query
    string; [None] is [undefined].  Each is given at most once, so it is
    a string and not an array. *)
Record query : Type := Query {
  q_from : option string;
  q_to : option string;
  q_amount : option string
}.

Record request : Type := Request {
  method : string;
  pathname : string;
  params : query
}.

(** [!p] for a query parameter: [undefined] and the empty string. *)
Definition absent (p : option string) : bool :=
  match p with
  | None => true
  | Some s => String.eqb s ""
  end.

Inductive payload : Type :=
  | NoContent
  | HomePage
  | Health
  | RatesInfo (live : bool) (lastUpdate : option Z) (source : string)
      (supportedCurrencies : gset string)
  | Failure (error : string)
  | Conversion (from to : string) (amount result : float) (source : string).

Record response : Type := Response {
  statusCode : Z;
  content : payload
}.

Section Server.

(** The two built-ins the route applies to its parameters. *)
Variable parseFloat : string -> float.
Variable toUpperCase : string -> string.

(** The [/convert] route.  [now] is the clock read inside
    [fetchExchangeRates], [now'] the one read when the response object
    is built. *)
Definition convert_route (c : cache) (q : query) (now now' : Z)
    (ev : net_event) : response * cache * nat :=
  if (absent (q_from q) || absent (q_to q) || absent (q_amount q))%bool
  then
    ({| statusCode := 400;
        content := Failure "Missing required parameters: from, to, amount" |},
     c, 0%nat)
  else
    let from := default "" (q_from q) in
    let to := default "" (q_to q) in
    let numAmount := parseFloat (default "" (q_amount q)) in
    if (PrimFloat.is_nan numAmount || PrimFloat.ltb numAmount 0)%bool
    then
      ({| statusCode := 400;
          content := Failure "Amount must be a valid positive number" |},
       c, 0%nat)
    else
      let '(r, c', n) :=
        convertCurrency c (toUpperCase from) (toUpperCase to) numAmount
          now ev in
      match returned r with
      | None =>
          ({| statusCode := 400;
              content := Failure "Invalid currency code" |}, c', n)
      | Some result =>
          ({| statusCode := 200;
              content := Conversion (toUpperCase from) (toUpperCase to)
                           numAmount result (source_label c' now') |},
           c', n)
      end.

(** The request listener.  Nothing in the modelled routes throws, so the
    listener's own [catch] block (status 500) has no counterpart. *)
Definition server (c : cache) (req : request) (now now' : Z)
    (ev : net_event) : response * cache * nat :=
  if String.eqb (method req) "OPTIONS" then
    ({| statusCode := 200; content := NoContent |}, c, 0%nat)
  else if String.eqb (pathname req) "/" then
    ({| statusCode := 200; content := HomePage |}, c, 0%nat)
  else if String.eqb (pathname req) "/health" then
    ({| statusCode := 200; content := Health |}, c, 0%nat)
  else if String.eqb (pathname req) "/rates-info" then
    ({| statusCode := 200;
        content :=
          RatesInfo (isLive c now)
            (if 0 <? lastFetchTime c then Some (lastFetchTime c) else None)
            (if isLive c now then "Open Exchange Rates API"
             else "Fallback rates")
            (dom (exchangeRates c)) |}, c, 0%nat)
  else if String.eqb (pathname req) "/convert" then
    convert_route c (params req) now now' ev
  else
    ({| statusCode := 404; content := Failure "Not found" |}, c, 0%nat).

End Server.

(** What the [/convert] route answers once the promise of
    [fetchExchangeRates] has settled with [r]: the rest of
    [convertCurrency] and of the listener, run in the same turn on the
    cache [c] of that moment, with [now'] the clock read for the source
    label.  [from] and [to] are the codes in upper case and [numAmount]
    the parsed amount. *)
Definition convert_answer (from to : string) (numAmount : float)
    (r : settled (gmap string float)) (c : cache) (now' : Z) : response :=
  match returned
          match r with
          | Resolved rates => convert_with rates from to numAmount
          | Rejected _ => NullCaught
          end
  with
  | None =>
      {| statusCode := 400; content := Failure "Invalid currency code" |}
  | Some result =>
      {| statusCode := 200;
         content := Conversion from to numAmount result (source_label c now') |}
  end.

(** ** Failure conditions *)

(** The events after which [fetchExchangeRates] falls back. *)
Definition is_failure (ev : net_event) : bool :=
  match ev with
  | ResponseEnd (WithRates _) => false
  | _ => true
  end.

(** A turn in which the provider, if it answers, fails. *)
Definition turn_fails (t : turn) : bool :=
  match t with
  | Incoming _ => true
  | Arrives _ ev => is_failure ev
  end.

(** The reason codes a discriminated failure result would carry, after
    the four failure conditions the source tells apart in its log
    messages, and the condition each event stands for. *)
Inductive failure_reason : Type :=
  | NetworkFailure
  | TimeoutFailure
  | MalformedResponse
  | MissingRates.

Definition reason_of (ev : net_event) : option failure_reason :=
  match ev with
  | RequestError => Some NetworkFailure
  | RequestTimeout => Some TimeoutFailure
  | ResponseEnd Malformed => Some MalformedResponse
  | ResponseEnd NoRates => Some MissingRates
  | ResponseEnd (WithRates _) => None
  end.

(** Rounding to two decimal places as the source writes it. *)
Definition round2 (x : float) : float :=
  (JS.round (x * 100) / 100)%float.

(** [|x - y| <= tol], false when either side is [NaN]. *)
Definition within (tol x y : float) : bool :=
  PrimFloat.leb (PrimFloat.abs (x - y)) tol.

(** Convert from [A] to [B], then the returned amount back to [A], on
    the same table. *)
Definition round_trip (rates : gmap string float) (A B : string)
    (amount : float) : conversion :=
  match convert_with rates A B amount with
  | Converted there => convert_with rates B A there
  | r => r
  end.

(** Successive calls again, keeping each call's whole outcome. *)
Fixpoint fetch_outcomes (c : cache) (calls : list (Z * net_event))
    : list outcome :=
  match calls with
  | [] => []
  | (now, ev) :: rest =>
      let o := fetchExchangeRates c now ev in
      o :: fetch_outcomes (cache_after o) rest
  end.

(** ** The test script

    The script sends [GET /convert?from=USD&to=INR&amount=100] to the
    server and validates the answer. *)

(** The values a property of the parsed answer can hold. *)
Inductive jsval : Type :=
  | Undefined
  | Null
  | Num (x : float)
  | Str (s : string).

(** The four properties [runTests] destructures from [response.data]. *)
Record test_data : Type := TestData {
  d_from : jsval;
  d_to : jsval;
  d_amount : jsval;
  d_result : jsval
}.

(** [!v]. *)
Definition falsy_val (v : jsval) : bool :=
  match v with
  | Undefined | Null => true
  | Num x => JS.falsy x
  | Str s => String.eqb s ""
  end.

(** [v === undefined]. *)
Definition is_undefined (v : jsval) : bool :=
  match v with
  | Undefined => true
  | _ => false
  end.

(** [v === s] for a string literal [s], and [v === x] for a number
    literal [x]. *)
Definition is_string (v : jsval) (s : string) : bool :=
  match v with
  | Str s' => String.eqb s' s
  | _ => false
  end.

Definition is_number (v : jsval) (x : float) : bool :=
  match v with
  | Num y => PrimFloat.eqb y x
  | _ => false
  end.

(** [typeof v !== 'number' || v <= 0]. *)
Definition not_positive_number (v : jsval) : bool :=
  match v with
  | Num x => PrimFloat.leb x 0
  | _ => true
  end.

(** How the script ends: [process.exit(0)], or the [throw] that leads to
    [process.exit(1)]. *)
Inductive verdict : Type :=
  | Passed
  | RequestFailed
  | WrongStatus
  | InvalidStructure
  | WrongFrom
  | WrongTo
  | WrongAmount
  | WrongResult.

Definition exit_code (v : verdict) : Z :=
  match v with
  | Passed => 0
  | _ => 1
  end.

(** [runTests], given how the promise of [makeRequest] settled.  The
    comparison of [result] with 8800 only logs a warning, so it does not
    appear. *)
Definition runTests (answer : settled (Z * test_data)) : verdict :=
  match answer with
  | Rejected _ => RequestFailed
  | Resolved (statusCode, data) =>
      if negb (statusCode =? 200) then WrongStatus
      else if (falsy_val (d_from data) || falsy_val (d_to data)
               || is_undefined (d_amount data)
               || is_undefined (d_result data))%bool
      then InvalidStructure
      else if negb (is_string (d_from data) "USD") then WrongFrom
      else if negb (is_string (d_to data) "INR") then WrongTo
      else if negb (is_number (d_amount data) 100) then WrongAmount
      else if not_positive_number (d_result data) then WrongResult
      else Passed
  end.

(** A number written by [JSON.stringify] and read back by [JSON.parse]:
    [NaN] and the infinities are written as [null], [-0] as [0]. *)
Definition json_number (x : float) : jsval :=
  if (PrimFloat.is_nan x || PrimFloat.is_infinity x)%bool then Null
  else if PrimFloat.eqb x 0 then Num 0
  else Num x.

(** What [makeRequest] makes of a body the server sent: the four
    properties of the parsed object, or nothing when the body is not
    JSON (the HTML page, the empty answer to OPTIONS). *)
Definition parsed_body (p : payload) : option test_data :=
  match p with
  | Conversion from to amount result _ =>
      Some {| d_from := Str from; d_to := Str to;
              d_amount := json_number amount;
              d_result := json_number result |}
  | Failure _ | Health | RatesInfo _ _ _ _ =>
      Some {| d_from := Undefined; d_to := Undefined;
              d_amount := Undefined; d_result := Undefined |}
  | HomePage | NoContent => None
  end.

(** How the script's request ends: the server's answer arrives whole
    [delay] milliseconds after the request was sent, or the connection
    fails. *)
Inductive delivery : Type :=
  | Answered (delay : Z) (r : response)
  | Refused.

(** [makeRequest]: the promise is rejected when the connection fails,
    when the answer has not arrived after 5000 ms (the script's own
    timeout) and when the body is not JSON; otherwise it resolves with
    the status code and the parsed body. *)
Definition makeRequest (d : delivery) : settled (Z * test_data) :=
  match d with
  | Refused => Rejected "Request failed"
  | Answered delay r =>
      if 5000 <=? delay then Rejected "Request timeout"
      else
        match parsed_body (content r) with
        | Some data => Resolved (statusCode r, data)
        | None => Rejected "Failed to parse JSON"
        end
  end.

(** The request the script sends. *)
Definition test_request : request :=
  Request "GET" "/convert" (Query (Some "USD") (Some "INR") (Some "100")).

(** ** Sample inputs *)

(** What [parseFloat] gives on the strings used in the examples; any
    other string is read as [NaN] here. *)
Definition parse_sample (s : string) : float :=
  if String.eqb s "-5" then (-5)%float
  else if String.eqb s "100" then 100%float
  else nan.

(** A cache filled by an earlier successful fetch. *)
Definition live_cache : cache :=
  {| exchangeRates := {[ "USD" := 1.0%float; "INR" := 83.5%float ]};
     lastFetchTime := 1700000000000 |}.

(** * Properties *)

(** Two numbers with different bit patterns are different. *)
Ltac float_discriminate H :=
  apply (f_equal Prim2SF) in H; vm_compute in H; discriminate H.

(** ** Binary64: dividing and multiplying by 1 is exact

    [amount / 1.0] and [usdAmount * 1.0] are the two operations
    [convertCurrency] performs for a currency whose rate is 1.0.  Both
    return their first operand unchanged; this is shown on the binary64
    specification of the two primitive operations. *)

Lemma Prim2SF_one : Prim2SF 1 = sf_one.
Proof. reflexivity. Qed.

(** A valid finite number has a canonical mantissa: its exponent is the
    one [fexp] assigns to its magnitude. *)
Lemma valid_finite_inv s m e :
  valid_binary (S754_finite s m e) = true ->
  fexp prec emax (Zpos (digits2_pos m) + e) = e /\ e <= 971 /\ -1074 <= e
  /\ Zpos (digits2_pos m) <= 53.
Proof.
  cbn. unfold bounded, canonical_mantissa. intros H.
  apply andb_true_iff in H as [Hc Hb].
  apply Z.eqb_eq in Hc. apply Z.leb_le in Hb.
  split; [exact Hc|]. unfold fexp, SpecFloat.emin, prec, emax in *. lia.
Qed.

(** Shifting out [k] zero bits loses nothing. *)
Lemma iter_shr_1_xO (k : nat) : forall m,
  Nat.iter k shr_1
    {| shr_m := Zpos (Nat.iter k xO m); shr_r := false; shr_s := false |}
  = {| shr_m := Zpos m; shr_r := false; shr_s := false |}.
Proof.
  induction k as [|k IH]; intros m; [reflexivity |].
  rewrite Nat.iter_succ_r.
  change (Nat.iter (S k) xO m) with (xO (Nat.iter k xO m)).
  cbn [shr_1 orb]. apply IH.
Qed.

(** The second rounding pass leaves a canonical mantissa alone. *)
Lemma round_settled s m e :
  fexp prec emax (Zpos (digits2_pos m) + e) = e -> e <= 971 ->
  (let '(mrs, e') := shr_fexp prec emax (Zpos m) e loc_Exact in
   match shr_m mrs with
   | Z0 => S754_zero s
   | Zpos m' =>
       if e' <=? emax - prec then S754_finite s m' e' else S754_infinity s
   | Zneg _ => S754_nan
   end) = S754_finite s m e.
Proof.
  intros Hc Hmax. unfold shr_fexp. cbn [Zdigits2]. rewrite Hc, Z.sub_diag.
  cbn [shr shr_record_of_loc shr_m]. change (emax - prec) with 971.
  destruct (Z.leb_spec e 971); [reflexivity | lia].
Qed.

(** Rounding an exact canonical value returns it. *)
Lemma round_canonical s m e :
  fexp prec emax (Zpos (digits2_pos m) + e) = e -> e <= 971 ->
  binary_round_aux prec emax s (Zpos m) e loc_Exact = S754_finite s m e.
Proof.
  intros Hc Hmax. unfold binary_round_aux. unfold shr_fexp at 1.
  cbn [Zdigits2]. rewrite Hc, Z.sub_diag.
  cbn [shr shr_record_of_loc shr_m loc_of_shr_record round_nearest_even].
  apply round_settled; assumption.
Qed.

Lemma SFmul_one x : valid_binary x = true -> SF64mul x sf_one = x.
Proof.
  destruct x as [s|s| |s m e]; intros Hv;
    [destruct s; reflexivity | destruct s; reflexivity | reflexivity |].
  apply valid_finite_inv in Hv as (Hc & Hmax & Hmin & Hd).
  unfold SF64mul, sf_one, SFmul, binary_round_aux.
  replace (Zpos (m * 4503599627370496)) with (Zpos (Nat.iter 52 xO m)).
  2:{ rewrite Pos.mul_comm. reflexivity. }
  unfold shr_fexp at 1.
  assert (Hdig : Zdigits2 (Zpos (Nat.iter 52 xO m))
                 = Zpos (digits2_pos m) + 52).
  { cbn. lia. }
  rewrite Hdig.
  replace (Z.pos (digits2_pos m) + 52 + (e + -52))
    with (Zpos (digits2_pos m) + e) by lia.
  rewrite Hc. replace (e - (e + -52)) with 52 by lia.
  unfold shr. cbn [shr_record_of_loc].
  change (SpecFloat.iter_pos shr_1 52) with (Nat.iter 52 shr_1).
  rewrite (iter_shr_1_xO 52 m). cbn [shr_m loc_of_shr_record round_nearest_even].
  replace (e + -52 + 52) with e by lia.
  rewrite round_settled by assumption. destruct s; reflexivity.
Qed.

Lemma div_eucl_exact m k : 0 < k -> Z.div_eucl (m * k) k = (m, 0).
Proof.
  intros Hk.
  pose proof (Z.div_mul m k ltac:(lia)) as Hq.
  pose proof (Z.mod_mul m k ltac:(lia)) as Hr.
  unfold Z.div, Z.modulo in Hq, Hr.
  destruct (Z.div_eucl (m * k) k) as [q r]. cbn in Hq, Hr. congruence.
Qed.

Lemma SFdiv_one x : valid_binary x = true -> SF64div x sf_one = x.
Proof.
  destruct x as [s|s| |s m e]; intros Hv;
    [destruct s; reflexivity | destruct s; reflexivity | reflexivity |].
  apply valid_finite_inv in Hv as (Hc & Hmax & Hmin & Hd).
  unfold SF64div, sf_one, SFdiv, SFdiv_core_binary.
  change (Zdigits2 (Zpos 4503599627370496)) with 53. cbn [Zdigits2].
  assert (Hcases :
    (Z.min (fexp prec emax (Zpos (digits2_pos m) + e - (53 + -52)))
       (e - -52) = e - 1
     /\ Zpos (digits2_pos m) = 53 /\ -1073 <= e)
    \/ Z.min (fexp prec emax (Zpos (digits2_pos m) + e - (53 + -52)))
         (e - -52) = e).
  { unfold fexp, SpecFloat.emin, prec, emax in *. lia. }
  destruct Hcases as [(He' & Hd53 & Hlo) | He']; rewrite He'.
  - replace (e - -52 - (e - 1)) with 53 by lia.
    rewrite Z.shiftl_mul_pow2 by lia.
    replace (Zpos m * 2 ^ 53) with (Zpos m~0 * 4503599627370496) by lia.
    rewrite div_eucl_exact by lia.
    cbn [new_location Z.even new_location_even Z.eqb].
    unfold binary_round_aux. unfold shr_fexp at 1. cbn [Zdigits2 digits2_pos].
    rewrite Pos2Z.inj_succ, Hd53.
    replace (fexp prec emax (Z.succ 53 + (e - 1)) - (e - 1)) with 1
      by (unfold fexp, SpecFloat.emin, prec, emax; lia).
    cbn [shr shr_record_of_loc SpecFloat.iter_pos shr_1 orb shr_m loc_of_shr_record
         round_nearest_even].
    replace (e - 1 + 1) with e by lia.
    rewrite round_settled by assumption. destruct s; reflexivity.
  - replace (e - -52 - e) with 52 by lia.
    rewrite Z.shiftl_mul_pow2 by lia.
    change (2 ^ 52) with 4503599627370496.
    rewrite div_eucl_exact by lia.
    cbn [new_location Z.even new_location_even Z.eqb].
    rewrite round_canonical by assumption. destruct s; reflexivity.
Qed.

Lemma float_mul_one (x : float) : (x * 1)%float = x.
Proof.
  apply Prim2SF_inj. rewrite mul_spec, Prim2SF_one.
  apply SFmul_one, Prim2SF_valid.
Qed.

Lemma float_div_one (x : float) : (x / 1)%float = x.
Proof.
  apply Prim2SF_inj. rewrite div_spec, Prim2SF_one.
  apply SFdiv_one, Prim2SF_valid.
Qed.

(** [NaN] as an operand gives [NaN]. *)
Lemma float_div_nan_r (x : float) : (x / nan)%float = nan.
Proof.
  apply Prim2SF_inj. rewrite div_spec. change (Prim2SF nan) with S754_nan.
  destruct (Prim2SF x); reflexivity.
Qed.

Lemma float_mul_nan_r (x : float) : (x * nan)%float = nan.
Proof.
  apply Prim2SF_inj. rewrite mul_spec. change (Prim2SF nan) with S754_nan.
  destruct (Prim2SF x); reflexivity.
Qed.

Lemma float_mul_nan_l (x : float) : (nan * x)%float = nan.
Proof.
  apply Prim2SF_inj. rewrite mul_spec. change (Prim2SF nan) with S754_nan.
  destruct (Prim2SF x); reflexivity.
Qed.

(** ** The fetch callback *)

Lemma fetch_settle_failure c now ev :
  is_failure ev = true ->
  fetch_settle c now ev = (Resolved fallbackRates, c).
Proof.
  destruct ev as [[| |rates]| |]; simpl; intros Hf;
    [reflexivity | reflexivity | discriminate Hf | reflexivity | reflexivity].
Qed.

Lemma fetch_settle_resolves c now ev :
  exists rates, (fetch_settle c now ev).1 = Resolved rates.
Proof. destruct ev as [[| |rates]| |]; simpl; eauto. Qed.

Lemma fetch_start_fresh c now :
  now - lastFetchTime c < CACHE_DURATION ->
  fetch_start c now = Some (Resolved (exchangeRates c)).
Proof.
  intros Hage. unfold fetch_start.
  destruct (Z.ltb_spec (now - lastFetchTime c) CACHE_DURATION); [reflexivity | lia].
Qed.

Lemma fetch_start_stale c now :
  CACHE_DURATION <= now - lastFetchTime c ->
  fetch_start c now = None.
Proof.
  intros Hage. unfold fetch_start.
  destruct (Z.ltb_spec (now - lastFetchTime c) CACHE_DURATION); [lia | reflexivity].
Qed.

Lemma fetchExchangeRates_fresh c now ev :
  now - lastFetchTime c < CACHE_DURATION ->
  fetchExchangeRates c now ev =
    {| result := Resolved (exchangeRates c); cache_after := c; requests := 0 |}.
Proof.
  intros Hage. unfold fetchExchangeRates.
  now rewrite (fetch_start_fresh _ _ Hage).
Qed.

Lemma fetchExchangeRates_stale c now ev :
  CACHE_DURATION <= now - lastFetchTime c ->
  fetchExchangeRates c now ev =
    {| result := (fetch_settle c now ev).1;
       cache_after := (fetch_settle c now ev).2;
       requests := 1 |}.
Proof.
  intros Hage. unfold fetchExchangeRates.
  rewrite (fetch_start_stale _ _ Hage).
  now destruct (fetch_settle c now ev).
Qed.

Lemma fetchExchangeRates_resolves c now ev :
  exists rates, result (fetchExchangeRates c now ev) = Resolved rates.
Proof.
  unfold fetchExchangeRates, fetch_start.
  destruct (now - lastFetchTime c <? CACHE_DURATION); simpl; [eauto |].
  destruct (fetch_settle_resolves c now ev) as [rates Hr].
  destruct (fetch_settle c now ev) as [r c']; simpl in *; eauto.
Qed.

(** A failing event never changes the cache, fresh or stale. *)
Lemma fetchExchangeRates_failure_cache c now ev :
  is_failure ev = true ->
  cache_after (fetchExchangeRates c now ev) = c.
Proof.
  intros Hf. unfold fetchExchangeRates.
  destruct (fetch_start c now); [reflexivity |].
  now rewrite (fetch_settle_failure _ _ _ Hf).
Qed.

(** ** C1: the base currency's rate *)

(** C1, as stated, fails: a response whose [rates] object carries its own
    [USD] member replaces the [1.0] written before the spread. *)
Lemma usd_rate_replaced_by_response :
  exchangeRates
    (cache_after
       (fetchExchangeRates initial_cache 1700000000000
          (ResponseEnd (WithRates {[ "USD" := 2.0%float ]}))))
    !! "USD" <> Some 1.0%float.
Proof.
  intros H. apply (f_equal to_number) in H. float_discriminate H.
Qed.

(** C1 (amended): the table the cache starts with maps USD to 1.0, and
    after a successful fetch USD maps to the rate the response gives for
    USD when it has one, and to 1.0 when it has none; the other codes
    are those of the response. *)
Theorem usd_rate_after_update (c : cache) (now : Z)
    (rates : gmap string float) :
  exchangeRates initial_cache !! "USD" = Some 1.0%float
  /\ exchangeRates (fetch_settle c now (ResponseEnd (WithRates rates))).2
       !! "USD" = Some (default 1.0%float (rates !! "USD"))
  /\ forall code, code <> "USD" ->
       exchangeRates (fetch_settle c now (ResponseEnd (WithRates rates))).2
         !! code = rates !! code.
Proof.
  split; [reflexivity |]. simpl. unfold literal_then_spread. split.
  - rewrite lookup_union. destruct (rates !! "USD") as [x|] eqn:E; simpl.
    + rewrite lookup_singleton_eq. reflexivity.
    + rewrite lookup_singleton_eq. reflexivity.
  - intros code Hne. rewrite lookup_union, lookup_singleton_ne by congruence.
    destruct (rates !! code); reflexivity.
Qed.

(** ** C2: the cache window *)

(** The executor's fast path does not depend on what is in flight. *)
Lemma turn_step_fresh s now :
  now - lastFetchTime (store s) < CACHE_DURATION ->
  turn_step s (Incoming now)
    = (s, Immediate (Resolved (exchangeRates (store s)))).
Proof.
  intros Hage. unfold turn_step. now rewrite (fetch_start_fresh _ _ Hage).
Qed.

(** C2: a call made less than ten minutes after [lastFetchTime], with
    [lastFetchTime] set, resolves with the cached table and issues no
    request, whatever requests are in flight.  Hence, when a call goes
    to the provider (as the first call of the process does) and the
    provider succeeds, a second call within the window returns the same
    table and the two calls issue exactly one request; and whatever
    else is in flight, once the answer with rates has arrived a call
    within the window of that request resolves with the table just
    stored and issues nothing. *)
Theorem cached_within_window (c : cache) (s : loop) (now now1 now2 : Z)
    (ev ev2 : net_event) (rates : gmap string float) :
  (now - lastFetchTime c < CACHE_DURATION ->
   lastFetchTime c <> 0 ->
   fetchExchangeRates c now ev =
     {| result := Resolved (exchangeRates c); cache_after := c;
        requests := 0 |})
  /\ (now - lastFetchTime (store s) < CACHE_DURATION ->
      lastFetchTime (store s) <> 0 ->
      turn_step s (Incoming now)
        = (s, Immediate (Resolved (exchangeRates (store s)))))
  /\ (CACHE_DURATION <= now1 - lastFetchTime c ->
      now2 - now1 < CACHE_DURATION ->
      let o1 := fetchExchangeRates c now1 (ResponseEnd (WithRates rates)) in
      let o2 := fetchExchangeRates (cache_after o1) now2 ev2 in
      result o2 = result o1
      /\ cache_after o2 = cache_after o1
      /\ (requests o1 + requests o2 = 1)%nat)
  /\ (forall id,
        in_flight s !! id = Some now1 ->
        now2 - now1 < CACHE_DURATION ->
        let answered :=
          turn_step s (Arrives id (ResponseEnd (WithRates rates))) in
        answered.2
          = Settled id (Resolved (literal_then_spread "USD" 1.0 rates))
        /\ turn_step answered.1 (Incoming now2)
           = (answered.1,
              Immediate (Resolved (literal_then_spread "USD" 1.0 rates)))).
Proof.
  split; [| split; [| split]].
  - intros Hfresh _. apply fetchExchangeRates_fresh, Hfresh.
  - intros Hfresh _. apply turn_step_fresh, Hfresh.
  - intros Hstale Hwin. cbv zeta.
    rewrite (fetchExchangeRates_stale c now1 _ Hstale). cbn.
    rewrite fetchExchangeRates_fresh by (cbn; lia). cbn. auto.
  - intros id Hid Hwin. cbv zeta.
    assert (Hstep : turn_step s (Arrives id (ResponseEnd (WithRates rates)))
              = ({| store := {| exchangeRates :=
                                  literal_then_spread "USD" 1.0 rates;
                                lastFetchTime := now1 |};
                    in_flight := delete id (in_flight s);
                    issued := issued s |},
                 Settled id (Resolved (literal_then_spread "USD" 1.0 rates)))).
    { unfold turn_step. now rewrite Hid. }
    rewrite Hstep. cbn [fst snd]. split; [reflexivity |].
    apply turn_step_fresh. cbn. lia.
Qed.

(** The first part on a cache filled earlier, the second on the cache
    the process starts with. *)
Lemma cached_within_window_witness :
  fetchExchangeRates (Cache fallbackRates 1700000000000) 1700000300000
      RequestError =
    {| result := Resolved fallbackRates;
       cache_after := Cache fallbackRates 1700000000000;
       requests := 0 |}
  /\ (result
        (fetchExchangeRates
           (cache_after
              (fetchExchangeRates initial_cache 1700000600000
                 (ResponseEnd (WithRates {[ "INR" := 83.5%float ]}))))
           1700001199999 RequestTimeout)
      = result
          (fetchExchangeRates initial_cache 1700000600000
             (ResponseEnd (WithRates {[ "INR" := 83.5%float ]})))
      /\ cache_after
           (fetchExchangeRates
              (cache_after
                 (fetchExchangeRates initial_cache 1700000600000
                    (ResponseEnd (WithRates {[ "INR" := 83.5%float ]}))))
              1700001199999 RequestTimeout)
         = cache_after
             (fetchExchangeRates initial_cache 1700000600000
                (ResponseEnd (WithRates {[ "INR" := 83.5%float ]})))
      /\ (requests
            (fetchExchangeRates initial_cache 1700000600000
               (ResponseEnd (WithRates {[ "INR" := 83.5%float ]})))
          + requests
              (fetchExchangeRates
                 (cache_after
                    (fetchExchangeRates initial_cache 1700000600000
                       (ResponseEnd (WithRates {[ "INR" := 83.5%float ]}))))
                 1700001199999 RequestTimeout)
          = 1)%nat).
Proof.
  split.
  - apply (proj1 (cached_within_window
                    (Cache fallbackRates 1700000000000) (idle initial_cache)
                    1700000300000 1700000600000 1700001199999
                    RequestError RequestTimeout {[ "INR" := 83.5%float ]}));
      cbn; unfold CACHE_DURATION; lia.
  - apply (proj1 (proj2 (proj2 (cached_within_window
                    initial_cache (idle initial_cache)
                    1700000300000 1700000600000 1700001199999
                    RequestError RequestTimeout {[ "INR" := 83.5%float ]}))));
      cbn; unfold CACHE_DURATION; lia.
Defined.

(** ** C3: failed fetches *)

Lemma isLive_stale c now :
  CACHE_DURATION <= now - lastFetchTime c -> isLive c now = false.
Proof.
  intros Hage. unfold isLive.
  destruct (Z.ltb_spec (now - lastFetchTime c) CACHE_DURATION); [lia | reflexivity].
Qed.

Lemma isLive_never c now : lastFetchTime c = 0 -> isLive c now = false.
Proof.
  intros H0. unfold isLive. rewrite H0. cbn. apply andb_false_r.
Qed.

(** A failing event settles its call with the fallback table and leaves
    the module variables alone, whatever else is in flight. *)
Lemma turn_step_failure s id now ev :
  in_flight s !! id = Some now ->
  is_failure ev = true ->
  turn_step s (Arrives id ev)
    = ({| store := store s; in_flight := delete id (in_flight s);
          issued := issued s |},
       Settled id (Resolved fallbackRates)).
Proof.
  intros Hid Hf. unfold turn_step.
  now rewrite Hid, (fetch_settle_failure _ _ _ Hf).
Qed.

(** Every turn leaves the cache alone or is a successful answer. *)
Lemma turn_step_store s t :
  store (turn_step s t).1 = store s
  \/ exists id now rates,
       t = Arrives id (ResponseEnd (WithRates rates))
       /\ in_flight s !! id = Some now
       /\ store (turn_step s t).1
            = {| exchangeRates := literal_then_spread "USD" 1.0 rates;
                 lastFetchTime := now |}.
Proof.
  destruct t as [now | id ev]; cbn.
  - left. now destruct (fetch_start (store s) now).
  - destruct (in_flight s !! id) as [now|] eqn:Hid; [| now left].
    destruct ev as [[| |rates]| |]; cbn; try (now left).
    right. now exists id, now, rates.
Qed.

(** With a provider that only fails, in any interleaving of calls and
    answers, a cache holding the fallback table is never changed and
    every promise settles with that table. *)
Lemma run_turns_failures s turns :
  exchangeRates (store s) = fallbackRates ->
  Forall (fun t => turn_fails t = true) turns ->
  store (run_turns s turns).2 = store s
  /\ Forall (fun o => forall r, resolution o = Some r ->
                                r = Resolved fallbackRates)
       (run_turns s turns).1.
Proof.
  intros Htable Hall. revert s Htable.
  induction Hall as [|t rest Ht _ IH]; intros s Htable; cbn.
  - split; [reflexivity | constructor].
  - assert (Hstep : store (turn_step s t).1 = store s
                    /\ forall r, resolution (turn_step s t).2 = Some r ->
                                 r = Resolved fallbackRates).
    { destruct t as [now | id ev]; cbn in *.
      - destruct (fetch_start (store s) now) as [r0|] eqn:Hs; cbn.
        + split; [reflexivity |]. intros r Hr. injection Hr as <-.
          unfold fetch_start in Hs.
          destruct (now - lastFetchTime (store s) <? CACHE_DURATION);
            [| discriminate].
          injection Hs as <-. now rewrite Htable.
        + split; [reflexivity | discriminate].
      - destruct (in_flight s !! id) as [now|] eqn:Hid; cbn.
        + rewrite (fetch_settle_failure _ _ _ Ht). cbn.
          split; [reflexivity |]. intros r Hr. now injection Hr as <-.
        + split; [reflexivity | discriminate]. }
    destruct (turn_step s t) as [s' o]. cbn in Hstep.
    destruct Hstep as [Hs' Ho].
    specialize (IH s' ltac:(now rewrite Hs')).
    destruct (run_turns s' rest) as [os s'']. cbn in *.
    destruct IH as [IHs IHo]. split; [now rewrite IHs |].
    constructor; assumption.
Qed.

(** A call that no other call overlaps is [fetchExchangeRates]. *)
Lemma run_turns_serial c now ev :
  store (run_turns (idle c) [Incoming now; Arrives 0%nat ev]).2
    = cache_after (fetchExchangeRates c now ev)
  /\ omap resolution (run_turns (idle c) [Incoming now; Arrives 0%nat ev]).1
     = [result (fetchExchangeRates c now ev)].
Proof.
  unfold fetchExchangeRates. cbn.
  destruct (fetch_start c now) as [r|]; cbn.
  - split; reflexivity.
  - rewrite lookup_insert_eq. destruct (fetch_settle c now ev) as [r c'].
    split; reflexivity.
Qed.

(** C3, as stated, fails when requests overlap.  Two calls find the cache
    out of date and each issues a request; the second is answered with
    rates, which refreshes the cache; then the first times out.  Its
    promise settles with the fallback table, but the label, computed
    from the cache as it is then, is "live". *)
Lemma failed_attempt_labelled_live :
  (run_turns (idle initial_cache)
     [ Incoming 1700000600000; Incoming 1700000600100;
       Arrives 1%nat (ResponseEnd (WithRates {[ "INR" := 84%float ]}));
       Arrives 0%nat RequestTimeout ]).1
    = [ Sent 0%nat; Sent 1%nat;
        Settled 1%nat
          (Resolved (literal_then_spread "USD" 1.0 {[ "INR" := 84%float ]}));
        Settled 0%nat (Resolved fallbackRates) ]
  /\ source_label
       (store
          (run_turns (idle initial_cache)
             [ Incoming 1700000600000; Incoming 1700000600100;
               Arrives 1%nat (ResponseEnd (WithRates {[ "INR" := 84%float ]}));
               Arrives 0%nat RequestTimeout ]).2)
       1700000605000 = "live"
  /\ convert_answer "USD" "INR" 100 (Resolved fallbackRates)
       (store
          (run_turns (idle initial_cache)
             [ Incoming 1700000600000; Incoming 1700000600100;
               Arrives 1%nat (ResponseEnd (WithRates {[ "INR" := 84%float ]}));
               Arrives 0%nat RequestTimeout ]).2)
       1700000605000
     = {| statusCode := 200;
          content := Conversion "USD" "INR" 100 8800 "live" |}.
Proof. repeat split. Qed.

(** C3 (amended): whatever else is in flight, a fetch attempt that fails
    settles its promise with the fallback table and leaves
    [exchangeRates] and [lastFetchTime] as it finds them.  The caller is
    told the source is "fallback" provided the cache the handler finds is
    still out of date for the clock value the call read (no overlapping
    request has refreshed it) and the clock read for the label is not
    earlier; when an overlapping request has refreshed the cache, the
    label says "live" although the fallback table was used.  With a
    provider that always fails, in any interleaving of calls and answers
    from the initial cache, every promise settles with the fallback
    table, [lastFetchTime] stays at 0 and the label stays "fallback". *)
Theorem failed_attempt_falls_back (s : loop) (id : nat) (now now' : Z)
    (ev : net_event) (from to : string) (amount : float)
    (turns : list turn) :
  (in_flight s !! id = Some now ->
   is_failure ev = true ->
   (turn_step s (Arrives id ev)).2 = Settled id (Resolved fallbackRates)
   /\ store (turn_step s (Arrives id ev)).1 = store s)
  /\ (in_flight s !! id = Some now ->
      is_failure ev = true ->
      CACHE_DURATION <= now - lastFetchTime (store s) ->
      now <= now' ->
      source_label (store (turn_step s (Arrives id ev)).1) now' = "fallback"
      /\ forall value source,
           content
             (convert_answer from to amount (Resolved fallbackRates)
                (store (turn_step s (Arrives id ev)).1) now')
             = Conversion from to amount value source ->
           source = "fallback")
  /\ (Forall (fun t => turn_fails t = true) turns ->
      Forall (fun o => forall r, resolution o = Some r ->
                                 r = Resolved fallbackRates)
        (run_turns (idle initial_cache) turns).1
      /\ store (run_turns (idle initial_cache) turns).2 = initial_cache
      /\ lastFetchTime (store (run_turns (idle initial_cache) turns).2) = 0
      /\ source_label (store (run_turns (idle initial_cache) turns).2) now'
           = "fallback").
Proof.
  split; [| split].
  - intros Hid Hf. now rewrite (turn_step_failure s id now ev Hid Hf).
  - intros Hid Hf Hstale Hclock.
    rewrite (turn_step_failure s id now ev Hid Hf). cbn [fst store].
    assert (Hlabel : source_label (store s) now' = "fallback").
    { unfold source_label. now rewrite isLive_stale by lia. }
    split; [exact Hlabel |].
    intros value source. unfold convert_answer.
    destruct (returned _); cbn; [| discriminate].
    intros Hc. injection Hc as _ <-. exact Hlabel.
  - intros Hall.
    destruct (run_turns_failures (idle initial_cache) turns eq_refl Hall)
      as [Hstore Hres].
    cbn [idle store] in Hstore. rewrite Hstore.
    repeat split; [exact Hres |].
    unfold source_label. now rewrite isLive_never.
Qed.

(** A request out alone since the cache was last refreshed, then timing
    out; and a provider that fails two overlapping calls. *)
Lemma failed_attempt_falls_back_witness :
  ((turn_step (Loop live_cache {[ 0%nat := 1700000600000 ]} 1) 
      (Arrives 0%nat RequestTimeout)).2
     = Settled 0%nat (Resolved fallbackRates)
   /\ store (turn_step (Loop live_cache {[ 0%nat := 1700000600000 ]} 1)
               (Arrives 0%nat RequestTimeout)).1 = live_cache)
  /\ (source_label
        (store (turn_step (Loop live_cache {[ 0%nat := 1700000600000 ]} 1)
                  (Arrives 0%nat RequestTimeout)).1)
        1700000605000 = "fallback"
      /\ forall value source,
           content
             (convert_answer "USD" "INR" 100 (Resolved fallbackRates)
                (store
                   (turn_step (Loop live_cache {[ 0%nat := 1700000600000 ]} 1)
                      (Arrives 0%nat RequestTimeout)).1)
                1700000605000)
             = Conversion "USD" "INR" 100 value source ->
           source = "fallback")
  /\ (Forall (fun o => forall r, resolution o = Some r ->
                                 r = Resolved fallbackRates)
        (run_turns (idle initial_cache)
           [ Incoming 1700000600000; Incoming 1700000600100;
             Arrives 1%nat RequestError;
             Arrives 0%nat (ResponseEnd Malformed) ]).1
      /\ store
           (run_turns (idle initial_cache)
              [ Incoming 1700000600000; Incoming 1700000600100;
                Arrives 1%nat RequestError;
                Arrives 0%nat (ResponseEnd Malformed) ]).2 = initial_cache
      /\ lastFetchTime
           (store
              (run_turns (idle initial_cache)
                 [ Incoming 1700000600000; Incoming 1700000600100;
                   Arrives 1%nat RequestError;
                   Arrives 0%nat (ResponseEnd Malformed) ]).2) = 0
      /\ source_label
           (store
              (run_turns (idle initial_cache)
                 [ Incoming 1700000600000; Incoming 1700000600100;
                   Arrives 1%nat RequestError;
                   Arrives 0%nat (ResponseEnd Malformed) ]).2)
           1700000605000 = "fallback").
Proof.
  pose proof (failed_attempt_falls_back
                (Loop live_cache {[ 0%nat := 1700000600000 ]} 1) 0%nat
                1700000600000 1700000605000 RequestTimeout "USD" "INR" 100
                [ Incoming 1700000600000; Incoming 1700000600100;
                  Arrives 1%nat RequestError;
                  Arrives 0%nat (ResponseEnd Malformed) ])
    as (HA & HB & HC).
  split; [| split].
  - exact (HA eq_refl eq_refl).
  - apply (HB eq_refl eq_refl); [cbn; unfold CACHE_DURATION; lia | lia].
  - apply HC. repeat constructor.
Defined.

(** ** C5: how failures reach the caller *)

(** C5, as stated, fails: no reason code can be read off the value the
    fetch settles with, because a network error and a timeout settle the
    promise with the very same value. *)
Lemma failure_reason_not_reported :
  ~ exists decode : settled (gmap string float) -> option failure_reason,
      forall ev, is_failure ev = true ->
        decode (fetch_settle initial_cache 1700000000000 ev).1 = reason_of ev.
Proof.
  intros [decode Hd].
  pose proof (Hd RequestError eq_refl) as He.
  pose proof (Hd RequestTimeout eq_refl) as Ht.
  simpl in He, Ht. rewrite He in Ht. discriminate Ht.
Qed.

(** C5 (amended): every failure of the fetch is absorbed where it occurs:
    whatever the failure condition, the promise is resolved, never
    rejected, with the fallback table, so two different failures give
    the caller the same value and no reason code. *)
Theorem failures_resolve_alike (c : cache) (now : Z) (ev1 ev2 : net_event) :
  is_failure ev1 = true ->
  is_failure ev2 = true ->
  (fetch_settle c now ev1).1 = Resolved fallbackRates
  /\ (fetch_settle c now ev1).1 = (fetch_settle c now ev2).1
  /\ (forall reason, (fetch_settle c now ev1).1 <> Rejected reason).
Proof.
  intros H1 H2.
  rewrite (fetch_settle_failure c now ev1 H1), (fetch_settle_failure c now ev2 H2).
  simpl. repeat split. intros reason Hr. discriminate Hr.
Qed.

Lemma failures_resolve_alike_witness :
  (fetch_settle initial_cache 1700000000000 RequestError).1
    = Resolved fallbackRates
  /\ (fetch_settle initial_cache 1700000000000 RequestError).1
     = (fetch_settle initial_cache 1700000000000 (ResponseEnd NoRates)).1
  /\ (forall reason,
        (fetch_settle initial_cache 1700000000000 RequestError).1
          <> Rejected reason).
Proof.
  apply (failures_resolve_alike initial_cache 1700000000000
           RequestError (ResponseEnd NoRates)); reflexivity.
Defined.

(** ** C9: a failed fetch leaves the cache alone *)

(** C9: whichever failure ends a fetch attempt, the callback leaves both
    [exchangeRates] and [lastFetchTime] as they were when it ran, so a
    table fetched earlier stays in the cache; the fallback table is only
    the value that call resolves with. *)
Theorem failed_fetch_keeps_cache (c : cache) (now : Z) (ev : net_event) :
  is_failure ev = true ->
  (fetch_settle c now ev).2 = c
  /\ cache_after (fetchExchangeRates c now ev) = c
  /\ exchangeRates (cache_after (fetchExchangeRates c now ev)) = exchangeRates c
  /\ lastFetchTime (cache_after (fetchExchangeRates c now ev)) = lastFetchTime c
  /\ (CACHE_DURATION <= now - lastFetchTime c ->
      result (fetchExchangeRates c now ev) = Resolved fallbackRates).
Proof.
  intros Hf. rewrite (fetchExchangeRates_failure_cache c now ev Hf).
  rewrite (fetch_settle_failure c now ev Hf). repeat split.
  intros Hstale. rewrite (fetchExchangeRates_stale c now ev Hstale).
  now rewrite (fetch_settle_failure c now ev Hf).
Qed.

Lemma failed_fetch_keeps_cache_witness :
  (fetch_settle live_cache 1700000600000 (ResponseEnd Malformed)).2
    = live_cache
  /\ cache_after
       (fetchExchangeRates live_cache 1700000600000 (ResponseEnd Malformed))
     = live_cache
  /\ exchangeRates
       (cache_after
          (fetchExchangeRates live_cache 1700000600000
             (ResponseEnd Malformed)))
     = exchangeRates live_cache
  /\ lastFetchTime
       (cache_after
          (fetchExchangeRates live_cache 1700000600000
             (ResponseEnd Malformed)))
     = lastFetchTime live_cache
  /\ (CACHE_DURATION <= 1700000600000 - lastFetchTime live_cache ->
      result
        (fetchExchangeRates live_cache 1700000600000 (ResponseEnd Malformed))
      = Resolved fallbackRates).
Proof.
  exact (failed_fetch_keeps_cache live_cache 1700000600000
           (ResponseEnd Malformed) eq_refl).
Defined.

(** ** C10: the fetch always resolves *)

(** C10: on every branch the promise of [fetchExchangeRates] is resolved
    with a rate table and never rejected, so [convertCurrency] never ends
    in its [catch] block: it ends either at the guard, returning [null],
    or with [Math.round(...) / 100] computed on the resolved table. *)
Theorem fetch_total_no_catch (c : cache) (from to : string) (amount : float)
    (now : Z) (ev : net_event) :
  (forall reason, result (fetchExchangeRates c now ev) <> Rejected reason)
  /\ exists rates,
       result (fetchExchangeRates c now ev) = Resolved rates
       /\ (convertCurrency c from to amount now ev).1.1
            = convert_with rates from to amount
       /\ (convertCurrency c from to amount now ev).1.1 <> NullCaught
       /\ ((convertCurrency c from to amount now ev).1.1 = NullRate
           \/ exists y,
                (convertCurrency c from to amount now ev).1.1
                  = Converted (JS.round y / 100)%float).
Proof.
  destruct (fetchExchangeRates_resolves c now ev) as [rates Hr].
  split; [intros reason Hrej; rewrite Hr in Hrej; discriminate Hrej |].
  exists rates. split; [exact Hr |].
  unfold convertCurrency. cbn. rewrite Hr.
  split; [reflexivity |].
  unfold convert_with.
  destruct (JS.not (get rates from) || JS.not (get rates to))%bool.
  - split; [discriminate | now left].
  - split; [discriminate | right; eauto].
Qed.

(** ** C4: lookup, guard and rounding *)

(** Reading a code the table holds gives its rate. *)
Lemma get_own rates code x : rates !! code = Some x -> get rates code = JS.Number x.
Proof. intros H. unfold get. now rewrite H. Qed.

(** Reading a code the table does not hold gives [undefined], unless the
    code names an inherited member. *)
Lemma get_absent rates code :
  rates !! code = None -> inherited code = false ->
  get rates code = JS.Undefined.
Proof. intros H Hi. unfold get. now rewrite H, Hi. Qed.

Lemma convert_with_cases rates from to amount :
  convert_with rates from to amount =
    match get rates from, get rates to with
    | JS.Undefined, _ | _, JS.Undefined => NullRate
    | JS.Number fromRate, JS.Number toRate =>
        if (JS.falsy fromRate || JS.falsy toRate)%bool then NullRate
        else Converted (round2 (amount / fromRate * toRate))
    | JS.Number fromRate, JS.Object =>
        if JS.falsy fromRate then NullRate else Converted nan
    | JS.Object, JS.Number toRate =>
        if JS.falsy toRate then NullRate else Converted nan
    | JS.Object, JS.Object => Converted nan
    end.
Proof.
  unfold convert_with, round2.
  destruct (get rates from) as [|f|], (get rates to) as [|t|];
    cbn [JS.not JS.to_number orb];
    rewrite ?orb_true_r, ?orb_false_r;
    try destruct (JS.falsy f); try destruct (JS.falsy t);
    cbn [orb];
    rewrite ?float_div_nan_r, ?float_mul_nan_r, ?float_mul_nan_l;
    reflexivity.
Qed.

(** The conversion between two codes the table holds. *)
Lemma convert_with_own rates from to amount fromRate toRate :
  rates !! from = Some fromRate ->
  rates !! to = Some toRate ->
  convert_with rates from to amount =
    if (JS.falsy fromRate || JS.falsy toRate)%bool then NullRate
    else Converted (round2 (amount / fromRate * toRate)).
Proof.
  intros Hf Ht.
  now rewrite convert_with_cases, (get_own _ _ _ Hf), (get_own _ _ _ Ht).
Qed.

(** C4, as stated, fails, in two ways.  When the provider reports a rate
    of 0 for EUR, EUR is a key of the table the fetch resolves with (and
    so is USD), yet converting from EUR returns [null], the
    invalid-currency signal, not a rounded amount.  And a code that is
    absent from the table but names a member every object inherits, as
    [constructor] does, is not signalled at all: the read gives a
    function, which passes the guard, and the result is [NaN]. *)
Lemma rate_guard_is_not_absence :
  (result (fetchExchangeRates initial_cache 1700000000000
             (ResponseEnd (WithRates {[ "EUR" := 0%float ]})))
     = Resolved (literal_then_spread "USD" 1.0 {[ "EUR" := 0%float ]})
   /\ literal_then_spread "USD" 1.0 {[ "EUR" := 0%float ]} !! "EUR"
        = Some 0%float
   /\ literal_then_spread "USD" 1.0 {[ "EUR" := 0%float ]} !! "USD"
        = Some 1%float
   /\ returned
        (convertCurrency initial_cache "EUR" "USD" 5 1700000000000
           (ResponseEnd (WithRates {[ "EUR" := 0%float ]}))).1.1 = None)
  /\ (result (fetchExchangeRates initial_cache 1700000000000 RequestError)
       = Resolved fallbackRates
     /\ fallbackRates !! "constructor" = None
     /\ (convertCurrency initial_cache "constructor" "USD" 10 1700000000000
           RequestError).1.1 = Converted nan).
Proof. repeat split. Qed.

(** C4 (amended): [convertCurrency] works on the table its fetch resolved
    with, and reads the two codes as properties of it.  If either read
    gives [undefined] (the code is absent from the table and is not the
    name of a member inherited from [Object.prototype]), or gives a rate
    of 0 or NaN, it returns [null]; no default rate is substituted.  If
    both reads give rates that are neither 0 nor NaN it returns
    [Math.round(((amount / fromRate) * toRate) * 100) / 100], a single
    rounding step (ties towards +infinity) applied after the quotient
    and the product have been computed in binary64.  An absent code that
    names an inherited member, which no upper-cased code does, reads as
    a function and makes the result [NaN] instead of [null].  For two
    codes that name no inherited member this is: [null] when either is
    absent or has rate 0 or NaN, the rounded amount otherwise. *)
Theorem convert_guard_then_round (c : cache) (from to : string)
    (amount : float) (now : Z) (ev : net_event) :
  exists rates,
    result (fetchExchangeRates c now ev) = Resolved rates
    /\ (convertCurrency c from to amount now ev).1.1 =
         match get rates from, get rates to with
         | JS.Undefined, _ | _, JS.Undefined => NullRate
         | JS.Number fromRate, JS.Number toRate =>
             if (JS.falsy fromRate || JS.falsy toRate)%bool then NullRate
             else Converted (round2 (amount / fromRate * toRate))
         | JS.Number fromRate, JS.Object =>
             if JS.falsy fromRate then NullRate else Converted nan
         | JS.Object, JS.Number toRate =>
             if JS.falsy toRate then NullRate else Converted nan
         | JS.Object, JS.Object => Converted nan
         end
    /\ (inherited from = false -> inherited to = false ->
        (convertCurrency c from to amount now ev).1.1 =
          match rates !! from, rates !! to with
          | Some fromRate, Some toRate =>
              if (JS.falsy fromRate || JS.falsy toRate)%bool then NullRate
              else Converted (round2 (amount / fromRate * toRate))
          | _, _ => NullRate
          end).
Proof.
  destruct (fetchExchangeRates_resolves c now ev) as [rates Hr].
  exists rates. split; [exact Hr |].
  assert (Hconv : (convertCurrency c from to amount now ev).1.1
                  = convert_with rates from to amount).
  { unfold convertCurrency. cbn [fst]. now rewrite Hr. }
  rewrite Hconv. split; [apply convert_with_cases |].
  intros Hif Hit. rewrite convert_with_cases. unfold get.
  rewrite Hif, Hit.
  destruct (rates !! from) as [f|], (rates !! to) as [t|]; reflexivity.
Qed.

(** [Math.round] on ties and near them. *)
Example round_ties :
  JS.round 2.5 = 3%float /\ JS.round (-2.5) = (-2)%float
  /\ JS.round 0.5 = 1%float /\ JS.round 387.5 = 388%float
  /\ JS.round 2.4999999999999996 = 2%float.
Proof. repeat split. Qed.

(** ** C6: converting a currency to itself *)

(** C6, as stated, fails on the fallback table: 3.875 euros (a binary64
    number, and [round2 3.875] is 3.88) converted to euros give 3.87,
    because [(3.875 / 0.92) * 0.92] is 3.8749999999999996. *)
Lemma same_currency_not_identity :
  (3.875 / 0.92 * 0.92 = 3.8749999999999996)%float
  /\ convert_with fallbackRates "EUR" "EUR" 3.875 = Converted 3.87%float
  /\ round2 3.875 = 3.88%float
  /\ convert_with fallbackRates "EUR" "EUR" 3.875
       <> Converted (round2 3.875).
Proof.
  repeat split. intros H.
  apply (f_equal (fun r => to_number (returned r))) in H.
  float_discriminate H.
Qed.

(** C6 (amended): for a code whose rate [r] in the table is neither 0 nor
    NaN, converting an amount to the same currency gives
    [round2 ((amount / r) * r)].  This is [round2 amount] for every amount
    when the rate is 1.0, as for the base currency, and for another rate
    whenever the binary64 quotient and product give [amount] back. *)
Theorem same_currency_conversion (rates : gmap string float) (A : string)
    (r amount : float) :
  rates !! A = Some r ->
  JS.falsy r = false ->
  convert_with rates A A amount = Converted (round2 (amount / r * r))
  /\ (r = 1%float ->
      convert_with rates A A amount = Converted (round2 amount))
  /\ ((amount / r * r)%float = amount ->
      convert_with rates A A amount = Converted (round2 amount)).
Proof.
  intros Hr Ht. rewrite (convert_with_own _ _ _ _ _ _ Hr Hr), Ht. simpl.
  split; [reflexivity |]. split.
  - intros ->. now rewrite float_div_one, float_mul_one.
  - intros Hexact. now rewrite Hexact.
Qed.

Lemma same_currency_conversion_witness :
  convert_with fallbackRates "USD" "USD" 3.875
    = Converted (round2 (3.875 / 1 * 1))
  /\ (1%float = 1%float ->
      convert_with fallbackRates "USD" "USD" 3.875
        = Converted (round2 3.875))
  /\ ((3.875 / 1 * 1)%float = 3.875%float ->
      convert_with fallbackRates "USD" "USD" 3.875
        = Converted (round2 3.875)).
Proof.
  apply (same_currency_conversion fallbackRates "USD" 1 3.875);
    reflexivity.
Defined.

(** ** C7: there and back *)

(** C7, as stated, fails on the fallback table: one yen is 0.01 dollars
    after rounding, and 0.01 dollars are 1.56 yen, 0.56 away from the
    amount: more than two hops of 0.01. *)
Lemma round_trip_not_within_tolerance :
  convert_with fallbackRates "JPY" "USD" 1 = Converted 0.01%float
  /\ convert_with fallbackRates "USD" "JPY" 0.01 = Converted 1.56%float
  /\ round_trip fallbackRates "JPY" "USD" 1 = Converted 1.56%float
  /\ within 0.02 1.56 1 = false.
Proof. repeat split. Qed.

(** C7 (amended): with both rates neither 0 nor NaN and the table
    unchanged, the round trip returns
    [round2 ((round2 ((amount / a) * b) / b) * a)]: the way back starts
    from the rounded result of the way there.  It returns [round2 amount]
    whenever that rounded result, rescaled by [a / b] in binary64, is
    [amount] again; no bound in terms of the number of hops alone holds,
    since the cent lost on the way there is scaled by [a / b]. *)
Theorem round_trip_conversion (rates : gmap string float) (A B : string)
    (a b amount : float) :
  rates !! A = Some a ->
  rates !! B = Some b ->
  JS.falsy a = false ->
  JS.falsy b = false ->
  round_trip rates A B amount
    = Converted (round2 (round2 (amount / a * b) / b * a))
  /\ ((round2 (amount / a * b) / b * a)%float = amount ->
      round_trip rates A B amount = Converted (round2 amount)).
Proof.
  intros Ha Hb Hta Htb. unfold round_trip.
  rewrite (convert_with_own _ _ _ _ _ _ Ha Hb), Hta, Htb. simpl.
  rewrite (convert_with_own _ _ _ _ _ _ Hb Ha), Htb, Hta. simpl.
  split; [reflexivity |]. intros Hexact. now rewrite Hexact.
Qed.

Lemma round_trip_conversion_witness :
  round_trip fallbackRates "USD" "INR" 100
    = Converted (round2 (round2 (100 / 1 * 88) / 88 * 1))
  /\ ((round2 (100 / 1 * 88) / 88 * 1)%float = 100%float ->
      round_trip fallbackRates "USD" "INR" 100 = Converted (round2 100)).
Proof.
  apply (round_trip_conversion fallbackRates "USD" "INR" 1 88 100);
    reflexivity.
Defined.

(** ** C8: negative amounts *)

(** C8: a [/convert] request that names both currencies and whose amount
    [parseFloat] reads as a negative number is answered with status 400
    and the amount error; [convertCurrency] is not called, so the cache
    is untouched, no request goes out, and nothing is tried again. *)
Theorem negative_amount_rejected (parseFloat : string -> float)
    (toUpperCase : string -> string) (c : cache) (verb from to amount : string)
    (now now' : Z) (ev : net_event) :
  String.eqb verb "OPTIONS" = false ->
  from <> "" ->
  to <> "" ->
  amount <> "" ->
  PrimFloat.ltb (parseFloat amount) 0 = true ->
  server parseFloat toUpperCase c
    (Request verb "/convert" (Query (Some from) (Some to) (Some amount)))
    now now' ev
  = ({| statusCode := 400;
        content := Failure "Amount must be a valid positive number" |},
     c, 0%nat).
Proof.
  intros Hverb Hfrom Hto Hamount Hneg.
  unfold server. cbn [method pathname params]. rewrite Hverb.
  change (String.eqb "/convert" "/") with false.
  change (String.eqb "/convert" "/health") with false.
  change (String.eqb "/convert" "/rates-info") with false.
  change (String.eqb "/convert" "/convert") with true.
  cbv iota. unfold convert_route, absent. cbn [q_from q_to q_amount].
  apply String.eqb_neq in Hfrom, Hto, Hamount.
  rewrite Hfrom, Hto, Hamount. cbn [orb default from_option]. unfold id.
  rewrite Hneg, orb_true_r. reflexivity.
Qed.

Lemma negative_amount_rejected_witness :
  server parse_sample (fun s => s) initial_cache
    (Request "GET" "/convert" (Query (Some "USD") (Some "INR") (Some "-5")))
    1700000000000 1700000000001 RequestError
  = ({| statusCode := 400;
        content := Failure "Amount must be a valid positive number" |},
     initial_cache, 0%nat).
Proof.
  apply (negative_amount_rejected parse_sample (fun s => s)
           initial_cache "GET" "USD" "INR" "-5"
           1700000000000 1700000000001 RequestError);
    [reflexivity | discriminate | discriminate | discriminate | reflexivity].
Defined.

(** ** Worked requests *)

Example fallback_usd_to_inr :
  convert_with fallbackRates "USD" "INR" 100 = Converted 8800%float.
Proof. reflexivity. Qed.

Example unsupported_code :
  convert_with fallbackRates "XXX" "USD" 10 = NullRate.
Proof. reflexivity. Qed.

(** A request served while the provider times out: the cached live table
    is passed over for the fallback table, and stays in the cache. *)
Example convert_request_after_timeout :
  server parse_sample (fun s => s) live_cache
    (Request "GET" "/convert" (Query (Some "USD") (Some "INR") (Some "100")))
    1700000600000 1700000605000 RequestTimeout
  = ({| statusCode := 200;
        content := Conversion "USD" "INR" 100 8800 "fallback" |},
     live_cache, 1%nat).
Proof. reflexivity. Qed.

(** The same request inside the cache window is served from the cache. *)
Example convert_request_cached :
  server parse_sample (fun s => s) live_cache
    (Request "GET" "/convert" (Query (Some "USD") (Some "INR") (Some "100")))
    1700000300000 1700000300001 RequestTimeout
  = ({| statusCode := 200;
        content := Conversion "USD" "INR" 100 8350 "live" |},
     live_cache, 0%nat).
Proof. reflexivity. Qed.

(** * Further properties of the cache *)

(** ** The time of the last fetch *)

Lemma fetchExchangeRates_cache_cases c now ev :
  cache_after (fetchExchangeRates c now ev) = c
  \/ (CACHE_DURATION <= now - lastFetchTime c
      /\ exists rates,
           ev = ResponseEnd (WithRates rates)
           /\ cache_after (fetchExchangeRates c now ev)
                = {| exchangeRates := literal_then_spread "USD" 1.0 rates;
                     lastFetchTime := now |}).
Proof.
  destruct (Z.lt_ge_cases (now - lastFetchTime c) CACHE_DURATION) as [Hf|Hs].
  - left. now rewrite fetchExchangeRates_fresh.
  - rewrite (fetchExchangeRates_stale c now ev Hs).
    destruct (is_failure ev) eqn:Hfail.
    + left. now rewrite (fetch_settle_failure c now ev Hfail).
    + right. split; [exact Hs |].
      destruct ev as [[| |rates]| |]; try discriminate Hfail.
      exists rates. split; reflexivity.
Qed.

(** X1: [lastFetchTime] changes only in the turn in which an answer with
    rates arrives, and becomes the clock value that request's call read
    before the request went out.  For calls that do not overlap, each
    settled before the next begins, it therefore never moves backwards,
    whatever the clock reads: such a call either leaves the cache as it
    is or stores a time at least [CACHE_DURATION] later than the stored
    one.  (With overlapping calls the answers can arrive in the other
    order and the stored time can move back, as the example below
    shows.) *)
Theorem lastFetchTime_changes (s : loop) (t : turn) (c : cache) (now : Z)
    (ev : net_event) (calls : list (Z * net_event)) :
  (lastFetchTime (store (turn_step s t).1) = lastFetchTime (store s)
   \/ exists id issued_at rates,
        t = Arrives id (ResponseEnd (WithRates rates))
        /\ in_flight s !! id = Some issued_at
        /\ lastFetchTime (store (turn_step s t).1) = issued_at)
  /\ (cache_after (fetchExchangeRates c now ev) = c
      \/ lastFetchTime c + CACHE_DURATION
           <= lastFetchTime (cache_after (fetchExchangeRates c now ev)))
  /\ lastFetchTime c <= lastFetchTime (fetch_all c calls).2.
Proof.
  split; [| split].
  - destruct (turn_step_store s t) as [Hsame | (id & at_ & rates & Ht & Hid & Hs)].
    + left. now rewrite Hsame.
    + right. exists id, at_, rates. rewrite Hs. auto.
  - destruct (fetchExchangeRates_cache_cases c now ev)
      as [Hsame | (Hs & rates & _ & Hc)]; [now left | right].
    rewrite Hc. cbn. lia.
  - revert c. induction calls as [|[t0 e] rest IH]; intros c; cbn; [lia |].
    specialize (IH (cache_after (fetchExchangeRates c t0 e))).
    destruct (fetch_all (cache_after (fetchExchangeRates c t0 e)) rest)
      as [rs c'] eqn:Erest. cbn in *.
    destruct (fetchExchangeRates_cache_cases c t0 e)
      as [Hsame | (Hs & rates & _ & Hc)].
    + now rewrite Hsame in IH.
    + rewrite Hc in IH. cbn in IH. unfold CACHE_DURATION in Hs. lia.
Qed.

(** Two overlapping calls answered in the other order: the stored time
    ends at the earlier of the two clock values. *)
Example lastFetchTime_moves_back :
  lastFetchTime
    (store
       (run_turns (idle initial_cache)
          [ Incoming 1700000600000; Incoming 1700000600100;
            Arrives 1%nat (ResponseEnd (WithRates {[ "INR" := 84%float ]})) ]).2)
    = 1700000600100
  /\ lastFetchTime
       (store
          (run_turns (idle initial_cache)
             [ Incoming 1700000600000; Incoming 1700000600100;
               Arrives 1%nat (ResponseEnd (WithRates {[ "INR" := 84%float ]}));
               Arrives 0%nat (ResponseEnd (WithRates {[ "INR" := 85%float ]})) ]).2)
     = 1700000600000.
Proof. split; reflexivity. Qed.

(** ** The base currency stays in the table *)

Lemma fetchExchangeRates_keeps_usd c now ev :
  is_Some (exchangeRates c !! "USD") ->
  is_Some (exchangeRates (cache_after (fetchExchangeRates c now ev)) !! "USD")
  /\ exists rates,
       result (fetchExchangeRates c now ev) = Resolved rates
       /\ is_Some (rates !! "USD").
Proof.
  intros Hc.
  assert (Hnew : forall rates,
            is_Some (literal_then_spread "USD" 1.0 rates !! "USD")).
  { intros rates. unfold literal_then_spread. rewrite lookup_union.
    rewrite lookup_singleton_eq. destruct (rates !! "USD"); cbn; eauto. }
  unfold fetchExchangeRates, fetch_start.
  destruct (now - lastFetchTime c <? CACHE_DURATION); cbn; [eauto |].
  destruct ev as [[| |rates]| |]; cbn; eauto;
    split; try assumption; exists fallbackRates; split; try reflexivity;
    exists 1%float; reflexivity.
Qed.

Lemma fetch_all_keeps_usd c calls :
  is_Some (exchangeRates c !! "USD") ->
  "USD" ∈ dom (exchangeRates (fetch_all c calls).2)
  /\ Forall (fun r => exists rates, r = Resolved rates /\ "USD" ∈ dom rates)
       (fetch_all c calls).1.
Proof.
  revert c. induction calls as [|[t e] rest IH]; intros c Hc; cbn.
  - split; [now apply elem_of_dom | constructor].
  - destruct (fetchExchangeRates_keeps_usd c t e Hc) as (Hc' & rates & Hr & Hu).
    specialize (IH _ Hc').
    destruct (fetch_all (cache_after (fetchExchangeRates c t e)) rest)
      as [rs c'] eqn:Erest. cbn in *.
    destruct IH as [IHc IHr]. split; [exact IHc |].
    constructor; [| exact IHr].
    exists rates. split; [exact Hr | now apply elem_of_dom].
Qed.

(** X2: starting from the initial cache, after any sequence of calls and
    whatever the provider sent, USD is a key of the cached table and of
    every table a call resolved with. *)
Theorem usd_always_listed (calls : list (Z * net_event)) :
  "USD" ∈ dom (exchangeRates (fetch_all initial_cache calls).2)
  /\ Forall (fun r => exists rates, r = Resolved rates /\ "USD" ∈ dom rates)
       (fetch_all initial_cache calls).1.
Proof.
  apply fetch_all_keeps_usd. exists 1%float. reflexivity.
Qed.

(** ** From fallback to live *)

(** X3: when a call goes to the provider and the provider succeeds, the
    call resolves with the table it has just stored, the stored time is
    the clock value read before the request was sent, and (the stored
    time being positive) a reader within the next ten minutes is told
    the source is "live". *)
Theorem successful_fetch_is_live (c : cache) (now now' : Z)
    (rates : gmap string float) :
  0 <= lastFetchTime c ->
  CACHE_DURATION <= now - lastFetchTime c ->
  now' - now < CACHE_DURATION ->
  let o := fetchExchangeRates c now (ResponseEnd (WithRates rates)) in
  result o = Resolved (exchangeRates (cache_after o))
  /\ exchangeRates (cache_after o) = literal_then_spread "USD" 1.0 rates
  /\ lastFetchTime (cache_after o) = now
  /\ requests o = 1%nat
  /\ source_label (cache_after o) now' = "live".
Proof.
  intros Hpos Hstale Hwin. cbv zeta.
  rewrite (fetchExchangeRates_stale c now _ Hstale). cbn.
  repeat split. unfold source_label, isLive. cbn.
  destruct (Z.ltb_spec (now' - now) CACHE_DURATION); [| lia].
  destruct (Z.ltb_spec 0 now); [reflexivity |].
  unfold CACHE_DURATION in *. lia.
Qed.

Lemma successful_fetch_is_live_witness :
  result
    (fetchExchangeRates initial_cache 1700000000000
       (ResponseEnd (WithRates {[ "INR" := 83.5%float ]})))
  = Resolved
      (exchangeRates
         (cache_after
            (fetchExchangeRates initial_cache 1700000000000
       (ResponseEnd (WithRates {[ "INR" := 83.5%float ]})))))
  /\ exchangeRates
       (cache_after
          (fetchExchangeRates initial_cache 1700000000000
       (ResponseEnd (WithRates {[ "INR" := 83.5%float ]}))))
     = literal_then_spread "USD" 1.0 {[ "INR" := 83.5%float ]}
  /\ lastFetchTime
       (cache_after
          (fetchExchangeRates initial_cache 1700000000000
       (ResponseEnd (WithRates {[ "INR" := 83.5%float ]}))))
     = 1700000000000
  /\ requests
       (fetchExchangeRates initial_cache 1700000000000
       (ResponseEnd (WithRates {[ "INR" := 83.5%float ]})))
     = 1%nat
  /\ source_label
       (cache_after
          (fetchExchangeRates initial_cache 1700000000000
       (ResponseEnd (WithRates {[ "INR" := 83.5%float ]}))))
       1700000599999 = "live".
Proof.
  apply (successful_fetch_is_live initial_cache 1700000000000 1700000599999
           {[ "INR" := 83.5%float ]});
    cbn; unfold CACHE_DURATION; lia.
Defined.

(** ** Retrying after a failure *)



(** ** Inside the cache window *)

(** X6: as long as every call is made less than ten minutes after the
    stored fetch time, any number of calls resolve with the cached table,
    send nothing to the provider and leave the cache as it is, whatever
    the provider would have answered. *)
Theorem window_shields_provider (c : cache) (calls : list (Z * net_event)) :
  Forall (fun call => call.1 - lastFetchTime c < CACHE_DURATION) calls ->
  Forall (fun o => o = {| result := Resolved (exchangeRates c);
                          cache_after := c; requests := 0 |})
    (fetch_outcomes c calls)
  /\ length (fetch_outcomes c calls) = length calls.
Proof.
  intros Hall. induction Hall as [|[t e] rest Ht _ IH]; cbn.
  - split; [constructor | reflexivity].
  - cbn in Ht. rewrite (fetchExchangeRates_fresh c t e Ht). cbn.
    destruct IH as [IHo IHl]. split; [| now rewrite IHl].
    constructor; [reflexivity | exact IHo].
Qed.

Lemma window_shields_provider_witness :
  Forall (fun o => o = {| result := Resolved (exchangeRates live_cache);
                          cache_after := live_cache; requests := 0 |})
    (fetch_outcomes live_cache
       [(1700000000001, RequestError);
        (1700000300000, ResponseEnd (WithRates {[ "INR" := 84%float ]}));
        (1700000599999, RequestTimeout)])
  /\ length
       (fetch_outcomes live_cache
          [(1700000000001, RequestError);
           (1700000300000, ResponseEnd (WithRates {[ "INR" := 84%float ]}));
           (1700000599999, RequestTimeout)])
     = length
         [(1700000000001, RequestError);
          (1700000300000, ResponseEnd (WithRates {[ "INR" := 84%float ]}));
          (1700000599999, RequestTimeout)].
Proof.
  apply (window_shields_provider live_cache
           [(1700000000001, RequestError);
            (1700000300000, ResponseEnd (WithRates {[ "INR" := 84%float ]}));
            (1700000599999, RequestTimeout)]).
  repeat constructor; cbn; unfold CACHE_DURATION; lia.
Defined.

(** * Further properties of the server *)

Lemma fetchExchangeRates_requests c now ev :
  (requests (fetchExchangeRates c now ev) = 0%nat
   /\ cache_after (fetchExchangeRates c now ev) = c)
  \/ requests (fetchExchangeRates c now ev) = 1%nat.
Proof.
  unfold fetchExchangeRates. destruct (fetch_start c now); cbn; [now left |].
  destruct (fetch_settle c now ev). now right.
Qed.

(** What the [/convert] route does to the cache and to the network: either
    nothing, or what its one call of [fetchExchangeRates] does. *)
Lemma convert_route_effects parseFloat toUpperCase c q now now' ev :
  ((convert_route parseFloat toUpperCase c q now now' ev).1.2 = c
   /\ (convert_route parseFloat toUpperCase c q now now' ev).2 = 0%nat)
  \/ ((convert_route parseFloat toUpperCase c q now now' ev).1.2
        = cache_after (fetchExchangeRates c now ev)
      /\ (convert_route parseFloat toUpperCase c q now now' ev).2
           = requests (fetchExchangeRates c now ev)).
Proof.
  unfold convert_route.
  destruct (absent (q_from q) || absent (q_to q) || absent (q_amount q))%bool;
    [now left |].
  destruct (_ || _)%bool; [now left |].
  right. unfold convertCurrency. destruct (returned _); now cbn.
Qed.

(** X7: serving one incoming request sends at most one request to the
    provider, and the cache afterwards is either the cache before or the
    one [fetchExchangeRates] leaves; an OPTIONS request and every path
    other than [/convert] send nothing and leave the cache untouched. *)
Theorem server_effects (parseFloat : string -> float)
    (toUpperCase : string -> string) (c : cache) (req : request)
    (now now' : Z) (ev : net_event) :
  ((server parseFloat toUpperCase c req now now' ev).2 <= 1)%nat
  /\ ((server parseFloat toUpperCase c req now now' ev).1.2 = c
      \/ (server parseFloat toUpperCase c req now now' ev).1.2
           = cache_after (fetchExchangeRates c now ev))
  /\ ((method req = "OPTIONS" \/ pathname req <> "/convert") ->
      (server parseFloat toUpperCase c req now now' ev).1.2 = c
      /\ (server parseFloat toUpperCase c req now now' ev).2 = 0%nat).
Proof.
  unfold server.
  destruct (String.eqb_spec (method req) "OPTIONS") as [Hm|Hm];
    [cbn; split; [lia | split; [now left | now intros _]] |].
  destruct (String.eqb_spec (pathname req) "/");
    [cbn; split; [lia | split; [now left | now intros _]] |].
  destruct (String.eqb_spec (pathname req) "/health");
    [cbn; split; [lia | split; [now left | now intros _]] |].
  destruct (String.eqb_spec (pathname req) "/rates-info");
    [cbn; split; [lia | split; [now left | now intros _]] |].
  destruct (String.eqb_spec (pathname req) "/convert") as [Hp|Hp];
    [| cbn; split; [lia | split; [now left | now intros _]]].
  assert (Hno : method req = "OPTIONS" \/ pathname req <> "/convert" -> False)
    by (intros [Hopt | Hpath]; contradiction).
  destruct (convert_route_effects parseFloat toUpperCase c (params req)
              now now' ev) as [[Hc Hn] | [Hc Hn]];
    rewrite Hc, Hn.
  - split; [lia | split; [now left | intros H; elim (Hno H)]].
  - destruct (fetchExchangeRates_requests c now ev) as [[H0 Hc0] | H1].
    + rewrite H0. split; [lia | split; [now right | intros H; elim (Hno H)]].
    + rewrite H1. split; [lia | split; [now right | intros H; elim (Hno H)]].
Qed.

(** X8: a [/convert] request in which [from], [to] or [amount] is missing
    or empty is answered with status 400 and the missing-parameters
    error, before the amount is parsed and before any rate is fetched. *)
Theorem missing_parameter_rejected (parseFloat : string -> float)
    (toUpperCase : string -> string) (c : cache) (verb : string) (q : query)
    (now now' : Z) (ev : net_event) :
  verb <> "OPTIONS" ->
  (absent (q_from q) || absent (q_to q) || absent (q_amount q))%bool = true ->
  server parseFloat toUpperCase c (Request verb "/convert" q) now now' ev
  = ({| statusCode := 400;
        content := Failure "Missing required parameters: from, to, amount" |},
     c, 0%nat).
Proof.
  intros Hverb Habs. unfold server. cbn [method pathname params].
  apply String.eqb_neq in Hverb. rewrite Hverb.
  change (String.eqb "/convert" "/") with false.
  change (String.eqb "/convert" "/health") with false.
  change (String.eqb "/convert" "/rates-info") with false.
  change (String.eqb "/convert" "/convert") with true.
  cbv iota. unfold convert_route. now rewrite Habs.
Qed.

Lemma missing_parameter_rejected_witness :
  server parse_sample (fun s => s) live_cache
    (Request "GET" "/convert" (Query (Some "USD") None (Some "100")))
    1700000600000 1700000600001
    (ResponseEnd (WithRates {[ "INR" := 84%float ]}))
  = ({| statusCode := 400;
        content := Failure "Missing required parameters: from, to, amount" |},
     live_cache, 0%nat).
Proof.
  apply (missing_parameter_rejected parse_sample (fun s => s) live_cache
           "GET" (Query (Some "USD") None (Some "100")));
    [discriminate | reflexivity].
Defined.

(** X9: a [/convert] request naming both currencies whose amount
    [parseFloat] cannot read as a number is answered with status 400 and
    the amount error; nothing is fetched or converted. *)
Theorem unreadable_amount_rejected (parseFloat : string -> float)
    (toUpperCase : string -> string) (c : cache)
    (verb from to amount : string) (now now' : Z) (ev : net_event) :
  verb <> "OPTIONS" ->
  from <> "" ->
  to <> "" ->
  amount <> "" ->
  PrimFloat.is_nan (parseFloat amount) = true ->
  server parseFloat toUpperCase c
    (Request verb "/convert" (Query (Some from) (Some to) (Some amount)))
    now now' ev
  = ({| statusCode := 400;
        content := Failure "Amount must be a valid positive number" |},
     c, 0%nat).
Proof.
  intros Hverb Hfrom Hto Hamount Hnan.
  unfold server. cbn [method pathname params].
  apply String.eqb_neq in Hverb. rewrite Hverb.
  change (String.eqb "/convert" "/") with false.
  change (String.eqb "/convert" "/health") with false.
  change (String.eqb "/convert" "/rates-info") with false.
  change (String.eqb "/convert" "/convert") with true.
  cbv iota. unfold convert_route, absent. cbn [q_from q_to q_amount].
  apply String.eqb_neq in Hfrom, Hto, Hamount.
  rewrite Hfrom, Hto, Hamount. cbn [orb default from_option]. unfold id.
  now rewrite Hnan.
Qed.

Lemma unreadable_amount_rejected_witness :
  server parse_sample (fun s => s) live_cache
    (Request "GET" "/convert" (Query (Some "USD") (Some "INR") (Some "abc")))
    1700000600000 1700000600001
    (ResponseEnd (WithRates {[ "INR" := 84%float ]}))
  = ({| statusCode := 400;
        content := Failure "Amount must be a valid positive number" |},
     live_cache, 0%nat).
Proof.
  apply (unreadable_amount_rejected parse_sample (fun s => s) live_cache
           "GET" "USD" "INR" "abc");
    [discriminate | discriminate | discriminate | discriminate | reflexivity].
Defined.

(** The [/convert] route on a request that passes validation. *)
Lemma convert_route_valid parseFloat toUpperCase c from to amount now now' ev :
  from <> "" -> to <> "" -> amount <> "" ->
  PrimFloat.is_nan (parseFloat amount) = false ->
  PrimFloat.ltb (parseFloat amount) 0 = false ->
  convert_route parseFloat toUpperCase c
    (Query (Some from) (Some to) (Some amount)) now now' ev
  = let o := fetchExchangeRates c now ev in
    match returned
            (convertCurrency c (toUpperCase from) (toUpperCase to)
               (parseFloat amount) now ev).1.1 with
    | None =>
        ({| statusCode := 400; content := Failure "Invalid currency code" |},
         cache_after o, requests o)
    | Some value =>
        ({| statusCode := 200;
            content := Conversion (toUpperCase from) (toUpperCase to)
                         (parseFloat amount) value
                         (source_label (cache_after o) now') |},
         cache_after o, requests o)
    end.
Proof.
  intros Hfrom Hto Hamount Hnan Hneg.
  unfold convert_route, absent. cbn [q_from q_to q_amount].
  apply String.eqb_neq in Hfrom, Hto, Hamount.
  rewrite Hfrom, Hto, Hamount. cbn [orb default from_option]. unfold id.
  rewrite Hnan, Hneg. cbn [orb]. unfold convertCurrency. reflexivity.
Qed.

(** The same, with the answer built by [convert_answer]: the route is
    its validation, one call of [fetchExchangeRates], and the answer
    built in the turn that settles the call. *)
Lemma convert_route_answer parseFloat toUpperCase c from to amount
    now now' ev :
  from <> "" -> to <> "" -> amount <> "" ->
  PrimFloat.is_nan (parseFloat amount) = false ->
  PrimFloat.ltb (parseFloat amount) 0 = false ->
  convert_route parseFloat toUpperCase c
    (Query (Some from) (Some to) (Some amount)) now now' ev
  = (convert_answer (toUpperCase from) (toUpperCase to) (parseFloat amount)
       (result (fetchExchangeRates c now ev))
       (cache_after (fetchExchangeRates c now ev)) now',
     cache_after (fetchExchangeRates c now ev),
     requests (fetchExchangeRates c now ev)).
Proof.
  intros Hfrom Hto Hamount Hnan Hneg.
  rewrite convert_route_valid by assumption. cbv zeta.
  unfold convertCurrency, convert_answer. cbn [fst].
  destruct (returned _); reflexivity.
Qed.

(** X10: a valid [/convert] request naming a code that the table the
    fetch resolved with does not hold is answered with status 400 and
    the currency error; the fetch has taken place all the same, so the
    cache may have been refreshed and a request sent.  (The codes reach
    the lookup in upper case, and a string in upper case is never the
    name of an inherited member: that is the fourth pair of
    hypotheses.) *)
Theorem unknown_code_rejected (parseFloat : string -> float)
    (toUpperCase : string -> string) (c : cache)
    (from to amount : string) (now now' : Z) (ev : net_event)
    (rates : gmap string float) :
  from <> "" -> to <> "" -> amount <> "" ->
  PrimFloat.is_nan (parseFloat amount) = false ->
  PrimFloat.ltb (parseFloat amount) 0 = false ->
  inherited (toUpperCase from) = false ->
  inherited (toUpperCase to) = false ->
  result (fetchExchangeRates c now ev) = Resolved rates ->
  rates !! toUpperCase from = None \/ rates !! toUpperCase to = None ->
  convert_route parseFloat toUpperCase c
    (Query (Some from) (Some to) (Some amount)) now now' ev
  = ({| statusCode := 400; content := Failure "Invalid currency code" |},
     cache_after (fetchExchangeRates c now ev),
     requests (fetchExchangeRates c now ev)).
Proof.
  intros Hfrom Hto Hamount Hnan Hneg Hif Hit Hr Hmiss.
  rewrite convert_route_valid by assumption. cbv zeta.
  assert (Hnull : convert_with rates (toUpperCase from) (toUpperCase to)
                    (parseFloat amount) = NullRate).
  { rewrite convert_with_cases.
    destruct Hmiss as [Hm | Hm].
    - now rewrite (get_absent _ _ Hm Hif).
    - rewrite (get_absent _ _ Hm Hit).
      destruct (get rates (toUpperCase from)); reflexivity. }
  unfold convertCurrency. cbn [fst]. now rewrite Hr, Hnull.
Qed.

Lemma unknown_code_rejected_witness :
  convert_route parse_sample (fun s => s) live_cache
    (Query (Some "USD") (Some "EUR") (Some "100"))
    1700000600000 1700000600001
    (ResponseEnd (WithRates {[ "INR" := 84%float ]}))
  = ({| statusCode := 400; content := Failure "Invalid currency code" |},
     cache_after
       (fetchExchangeRates live_cache 1700000600000
          (ResponseEnd (WithRates {[ "INR" := 84%float ]}))),
     requests
       (fetchExchangeRates live_cache 1700000600000
          (ResponseEnd (WithRates {[ "INR" := 84%float ]})))).
Proof.
  apply (unknown_code_rejected parse_sample (fun s => s) live_cache
           "USD" "EUR" "100" 1700000600000 1700000600001
           (ResponseEnd (WithRates {[ "INR" := 84%float ]}))
           (literal_then_spread "USD" 1.0 {[ "INR" := 84%float ]}));
    [discriminate | discriminate | discriminate | reflexivity | reflexivity
    | reflexivity | reflexivity | reflexivity | right; reflexivity].
Defined.

(** X11: whatever else is in flight, the answer the [/convert] route
    builds when its request is settled carries the amount computed from
    the table then in the cache, if the answer is labelled "live", the
    clock read for the label is not earlier than the one the call read,
    and the cache the handler found was still out of date for that call
    (no overlapping request had refreshed it; without this last
    condition a timed-out call is labelled "live" over the fallback
    table). *)
Theorem live_answer_uses_cache (s : loop) (id : nat) (now now' : Z)
    (ev : net_event) (r : settled (gmap string float))
    (from to : string) (amount value : float) :
  in_flight s !! id = Some now ->
  CACHE_DURATION <= now - lastFetchTime (store s) ->
  now <= now' ->
  (turn_step s (Arrives id ev)).2 = Settled id r ->
  content
    (convert_answer from to amount r (store (turn_step s (Arrives id ev)).1)
       now')
    = Conversion from to amount value "live" ->
  convert_with (exchangeRates (store (turn_step s (Arrives id ev)).1))
    from to amount
  = Converted value.
Proof.
  intros Hid Hstale Hclock. unfold turn_step. rewrite Hid.
  destruct (is_failure ev) eqn:Hfail.
  - rewrite (fetch_settle_failure _ _ _ Hfail). cbn.
    intros Hr. injection Hr as <-. unfold convert_answer.
    destruct (returned _); cbn; [| discriminate].
    intros Hc. injection Hc as _ Hlabel. exfalso.
    unfold source_label in Hlabel.
    rewrite isLive_stale in Hlabel by lia. discriminate Hlabel.
  - destruct ev as [[| |rates]| |]; try discriminate Hfail. cbn.
    intros Hr. injection Hr as <-. unfold convert_answer.
    destruct (convert_with _ _ _ _) as [x| |] eqn:Hconv; cbn;
      try discriminate.
    intros Hc. injection Hc as <- _. reflexivity.
Qed.

Lemma live_answer_uses_cache_witness :
  convert_with
    (exchangeRates
       (store
          (turn_step (Loop live_cache {[ 0%nat := 1700000600000 ]} 1)
             (Arrives 0%nat (ResponseEnd (WithRates {[ "INR" := 84%float ]})))).1))
    "USD" "INR" 100
  = Converted 8400%float.
Proof.
  apply (live_answer_uses_cache
           (Loop live_cache {[ 0%nat := 1700000600000 ]} 1) 0%nat
           1700000600000 1700000600300
           (ResponseEnd (WithRates {[ "INR" := 84%float ]}))
           (Resolved (literal_then_spread "USD" 1.0 {[ "INR" := 84%float ]}))
           "USD" "INR" 100 8400);
    [reflexivity | cbn; unfold CACHE_DURATION; lia | lia | reflexivity
    | reflexivity].
Defined.

(** X12: after any history of fetches from the initial cache, a
    [/rates-info] request is answered with status 200 without touching
    the cache or the provider; the answer lists USD among the supported
    currencies, and it says "live" only together with a last-update time
    that is less than ten minutes old, "Fallback rates" otherwise. *)
Theorem rates_info_answer (parseFloat : string -> float)
    (toUpperCase : string -> string) (calls : list (Z * net_event))
    (verb : string) (q : query) (now now' : Z) (ev : net_event) :
  verb <> "OPTIONS" ->
  exists live lastUpdate source supportedCurrencies,
    server parseFloat toUpperCase (fetch_all initial_cache calls).2
      (Request verb "/rates-info" q) now now' ev
    = ({| statusCode := 200;
          content := RatesInfo live lastUpdate source supportedCurrencies |},
       (fetch_all initial_cache calls).2, 0%nat)
    /\ "USD" ∈ supportedCurrencies
    /\ (live = true ->
        exists t, lastUpdate = Some t /\ 0 < t /\ now - t < CACHE_DURATION
                  /\ source = "Open Exchange Rates API")
    /\ (live = false -> source = "Fallback rates").
Proof.
  intros Hverb. apply String.eqb_neq in Hverb.
  unfold server. cbn [method pathname params]. rewrite Hverb.
  change (String.eqb "/rates-info" "/") with false.
  change (String.eqb "/rates-info" "/health") with false.
  change (String.eqb "/rates-info" "/rates-info") with true.
  cbv iota. do 4 eexists. split; [reflexivity |].
  split.
  { apply fetch_all_keeps_usd. exists 1%float. reflexivity. }
  set (c := (fetch_all initial_cache calls).2).
  unfold isLive.
  destruct (Z.ltb_spec (now - lastFetchTime c) CACHE_DURATION);
    destruct (Z.ltb_spec 0 (lastFetchTime c)); cbn; split;
    try discriminate; try reflexivity.
  intros _. exists (lastFetchTime c). auto.
Qed.

Lemma rates_info_answer_witness :
  exists live lastUpdate source supportedCurrencies,
    server parse_sample (fun s => s)
      (fetch_all initial_cache
         [(1700000000000, ResponseEnd (WithRates {[ "INR" := 84%float ]}))]).2
      (Request "GET" "/rates-info" (Query None None None))
      1700000300000 1700000300000 RequestError
    = ({| statusCode := 200;
          content := RatesInfo live lastUpdate source supportedCurrencies |},
       (fetch_all initial_cache
          [(1700000000000, ResponseEnd (WithRates {[ "INR" := 84%float ]}))]).2,
       0%nat)
    /\ "USD" ∈ supportedCurrencies
    /\ (live = true ->
        exists t, lastUpdate = Some t /\ 0 < t
                  /\ 1700000300000 - t < CACHE_DURATION
                  /\ source = "Open Exchange Rates API")
    /\ (live = false -> source = "Fallback rates").
Proof.
  apply (rates_info_answer parse_sample (fun s => s)
           [(1700000000000, ResponseEnd (WithRates {[ "INR" := 84%float ]}))]
           "GET" (Query None None None) 1700000300000 1700000300000
           RequestError).
  discriminate.
Defined.

(** * Further properties of the conversion *)

(** ** Binary64: zero divided or multiplied by a positive number *)

Lemma positive_finite_inv (a : float) :
  PrimFloat.ltb 0 a = true -> PrimFloat.ltb a infinity = true ->
  exists m e, Prim2SF a = S754_finite false m e.
Proof.
  rewrite !FloatAxioms.ltb_spec. change (Prim2SF 0) with (S754_zero false).
  change (Prim2SF infinity) with (S754_infinity false).
  destruct (Prim2SF a) as [s|s| |s m e]; cbn; try discriminate.
  - destruct s; discriminate.
  - destruct s; [discriminate |]. eauto.
Qed.

Lemma finite_is_number (a : float) s m e :
  Prim2SF a = S754_finite s m e ->
  PrimFloat.eqb a 0 = false /\ PrimFloat.is_nan a = false.
Proof.
  intros Ha. unfold PrimFloat.is_nan. rewrite !FloatAxioms.eqb_spec, Ha.
  change (Prim2SF 0) with (S754_zero false). split.
  - destruct s; reflexivity.
  - unfold SFeqb, SFcompare. rewrite Z.compare_refl, Pos.compare_cont_refl.
    destruct s; reflexivity.
Qed.

Lemma zero_div_positive (a : float) m e :
  Prim2SF a = S754_finite false m e -> (0 / a)%float = 0%float.
Proof.
  intros Ha. apply Prim2SF_inj. rewrite div_spec, Ha. reflexivity.
Qed.

Lemma zero_mul_positive (a : float) m e :
  Prim2SF a = S754_finite false m e -> (0 * a)%float = 0%float.
Proof.
  intros Ha. apply Prim2SF_inj. rewrite mul_spec, Ha. reflexivity.
Qed.

(** X13: an amount of zero converts to zero between any two codes whose
    rates are positive and finite. *)
Theorem zero_amount_converts_to_zero (rates : gmap string float)
    (A B : string) (a b : float) :
  rates !! A = Some a ->
  rates !! B = Some b ->
  PrimFloat.ltb 0 a = true -> PrimFloat.ltb a infinity = true ->
  PrimFloat.ltb 0 b = true -> PrimFloat.ltb b infinity = true ->
  convert_with rates A B 0 = Converted 0%float.
Proof.
  intros HA HB Ha0 Hai Hb0 Hbi.
  destruct (positive_finite_inv a Ha0 Hai) as (ma & ea & Ha).
  destruct (positive_finite_inv b Hb0 Hbi) as (mb & eb & Hb).
  destruct (finite_is_number a _ _ _ Ha) as [Hza Hna].
  destruct (finite_is_number b _ _ _ Hb) as [Hzb Hnb].
  rewrite (convert_with_own _ _ _ _ _ _ HA HB). unfold JS.falsy.
  rewrite Hza, Hna, Hzb, Hnb. cbn [orb].
  rewrite (zero_div_positive a _ _ Ha), (zero_mul_positive b _ _ Hb).
  reflexivity.
Qed.

Lemma zero_amount_converts_to_zero_witness :
  convert_with fallbackRates "JPY" "AED" 0 = Converted 0%float.
Proof.
  apply (zero_amount_converts_to_zero fallbackRates "JPY" "AED" 156.3 3.67);
    reflexivity.
Defined.

(** X14: when the base currency has rate 1.0 in the table, converting
    from it costs one multiplication and converting to it one division:
    the results are [round2 (amount * rate)] and [round2 (amount / rate)]
    for every amount and every rate that is neither 0 nor NaN. *)
Theorem base_currency_conversion (rates : gmap string float)
    (base B : string) (b amount : float) :
  rates !! base = Some 1%float ->
  rates !! B = Some b ->
  JS.falsy b = false ->
  convert_with rates base B amount = Converted (round2 (amount * b))
  /\ convert_with rates B base amount = Converted (round2 (amount / b)).
Proof.
  intros Hbase HB Hb.
  rewrite (convert_with_own _ _ _ _ _ _ Hbase HB),
    (convert_with_own _ _ _ _ _ _ HB Hbase), Hb.
  change (JS.falsy 1) with false. cbn [orb].
  now rewrite float_div_one, float_mul_one.
Qed.

Lemma base_currency_conversion_witness :
  convert_with fallbackRates "USD" "EUR" 3.875
    = Converted (round2 (3.875 * 0.92))
  /\ convert_with fallbackRates "EUR" "USD" 3.875
     = Converted (round2 (3.875 / 0.92)).
Proof.
  apply (base_currency_conversion fallbackRates "USD" "EUR" 0.92 3.875);
    reflexivity.
Defined.

(** * Properties of the test script *)

(** X15: the script passes exactly when the answer has status 200, names
    USD and INR, echoes the amount 100 and carries a number greater than
    zero (or NaN) as result; how far that number is from 8800 plays no
    part. *)
Theorem runTests_passes_iff (answer : settled (Z * test_data)) :
  runTests answer = Passed
  <-> exists data,
        answer = Resolved (200, data)
        /\ d_from data = Str "USD"
        /\ d_to data = Str "INR"
        /\ (exists x, d_amount data = Num x /\ PrimFloat.eqb x 100 = true)
        /\ (exists r, d_result data = Num r /\ PrimFloat.leb r 0 = false).
Proof.
  split.
  - destruct answer as [[status [f t a r]]|reason]; cbn; [| discriminate].
    destruct (Z.eqb_spec status 200) as [->|]; cbn; [| discriminate].
    destruct (falsy_val f || falsy_val t || is_undefined a || is_undefined r)%bool;
      [discriminate |].
    destruct f as [| |xf|sf]; cbn; try discriminate.
    destruct (String.eqb_spec sf "USD") as [->|]; cbn; [| discriminate].
    destruct t as [| |xt|st]; cbn; try discriminate.
    destruct (String.eqb_spec st "INR") as [->|]; cbn; [| discriminate].
    destruct a as [| |xa|sa]; cbn; try discriminate.
    destruct (PrimFloat.eqb xa 100) eqn:Ha; cbn; [| discriminate].
    destruct r as [| |xr|sr]; cbn; try discriminate.
    destruct (PrimFloat.leb xr 0) eqn:Hr; [discriminate |].
    intros _. eexists. repeat split; eauto.
  - intros (data & -> & Hf & Ht & (x & Ha & Hx) & (r & Hr & Hpos)).
    destruct data as [f t a res]. cbn in *. subst.
    cbn. rewrite Hx, Hpos. reflexivity.
Qed.



(** * The successful path of the [/convert] route *)

(** X17: a valid [/convert] request whose two codes, in upper case, have
    rates that are neither 0 nor NaN in the table the fetch resolved with
    is answered with status 200; the answer echoes the codes in upper
    case and the parsed amount, and its result is
    [round2 ((amount / fromRate) * toRate)]. *)
Theorem valid_request_converted (parseFloat : string -> float)
    (toUpperCase : string -> string) (c : cache)
    (from to amount : string) (now now' : Z) (ev : net_event)
    (rates : gmap string float) (fromRate toRate : float) :
  from <> "" -> to <> "" -> amount <> "" ->
  PrimFloat.is_nan (parseFloat amount) = false ->
  PrimFloat.ltb (parseFloat amount) 0 = false ->
  result (fetchExchangeRates c now ev) = Resolved rates ->
  rates !! toUpperCase from = Some fromRate ->
  rates !! toUpperCase to = Some toRate ->
  JS.falsy fromRate = false ->
  JS.falsy toRate = false ->
  convert_route parseFloat toUpperCase c
    (Query (Some from) (Some to) (Some amount)) now now' ev
  = ({| statusCode := 200;
        content :=
          Conversion (toUpperCase from) (toUpperCase to) (parseFloat amount)
            (round2 (parseFloat amount / fromRate * toRate))
            (source_label (cache_after (fetchExchangeRates c now ev)) now') |},
     cache_after (fetchExchangeRates c now ev),
     requests (fetchExchangeRates c now ev)).
Proof.
  intros Hfrom Hto Hamount Hnan Hneg Hr Hf Ht Hff Htf.
  rewrite convert_route_valid by assumption. cbv zeta.
  unfold convertCurrency. cbn.
  rewrite Hr, (convert_with_own _ _ _ _ _ _ Hf Ht), Hff, Htf.
  reflexivity.
Qed.

Lemma valid_request_converted_witness :
  convert_route parse_sample (fun s => s) live_cache
    (Query (Some "USD") (Some "INR") (Some "100"))
    1700000300000 1700000300001 RequestError
  = ({| statusCode := 200;
        content :=
          Conversion "USD" "INR" (parse_sample "100")
            (round2 (parse_sample "100" / 1 * 83.5))
            (source_label
               (cache_after
                  (fetchExchangeRates live_cache 1700000300000 RequestError))
               1700000300001) |},
     cache_after (fetchExchangeRates live_cache 1700000300000 RequestError),
     requests (fetchExchangeRates live_cache 1700000300000 RequestError)).
Proof.
  apply (valid_request_converted parse_sample (fun s => s) live_cache
           "USD" "INR" "100" 1700000300000 1700000300001 RequestError
           (exchangeRates live_cache) 1 83.5);
    [discriminate | discriminate | discriminate | reflexivity | reflexivity
    | reflexivity | reflexivity | reflexivity | reflexivity | reflexivity].
Defined.

(** The script against a server whose provider request times out. *)
Example test_fails_on_provider_timeout :
  exit_code
    (runTests
       (makeRequest
          (Answered 5003
             (server parse_sample (fun s => s) live_cache test_request
                1700000600000 1700000605002 RequestTimeout).1.1)))
  = 1.
Proof. reflexivity. Qed.
